(** * pdf_merger.py: a shallow embedding and its properties

    The program merges PDF files.  Its functions are embedded here as they
    are written in [pdf_merger.py]:

    - [find_pdfs_in_dir] (lines 26-32), the recursive directory scan;
    - [sort_files] (lines 34-42), ordering by name, mtime or size;
    - [merge_pdfs] (lines 44-83), the merge loop and the final write;
    - [main] (lines 85-109), which glues them together.

    Everything the program does not implement itself (the file system, the
    PyPDF2 reader and writer, standard output) is kept as explicit state: a
    [world] holds the files on disk and the trace of calls made so far, and
    the program is a function in a state-and-exception monad over it. *)

From Stdlib Require Import String Ascii List Bool Arith ZArith Lia.
From Stdlib Require Import Sorting.Sorted Sorting.Permutation DecimalString.
From stdpp Require Import base option gmap strings.

Import ListNotations.
Local Open Scope string_scope.
Local Open Scope list_scope.

(** ** Python strings

    Paths and messages are [string]s of 8-bit characters.  [str.lower] is
    modelled on the ASCII letters, which is all that the suffix test and the
    examples of the specification need. *)

Module PyStr.

Definition lower_ascii (c : ascii) : ascii :=
  let n := nat_of_ascii c in
  if ((65 <=? n)%nat && (n <=? 90)%nat)%bool then ascii_of_nat (n + 32) else c.

Fixpoint lower (s : string) : string :=
  match s with
  | EmptyString => EmptyString
  | String c r => String (lower_ascii c) (lower r)
  end.

(** [s.endswith(suf)] *)
Definition endswith (s suf : string) : bool :=
  let n := String.length s in
  let m := String.length suf in
  ((m <=? n)%nat && String.eqb (substring (n - m) m s) suf)%bool.

(** [str(n)] for a non-negative [int]. *)
Definition of_nat (n : nat) : string := NilZero.string_of_uint (Nat.to_uint n).

(** Truth value of a list and of an optional string ([None] and the empty
    string are both false). *)
Definition truthy_list {A} (o : option (list A)) : bool :=
  match o with
  | Some (_ :: _) => true
  | _ => false
  end.

Definition truthy_str (o : option string) : bool :=
  match o with
  | Some (String _ _) => true
  | _ => false
  end.

Fixpoint has_slash (s : string) : bool :=
  match s with
  | EmptyString => false
  | String c r => Ascii.eqb c "/" || has_slash r
  end.

(** [os.path.basename(p)] on POSIX: what follows the last slash. *)
Fixpoint basename (p : string) : string :=
  match p with
  | EmptyString => EmptyString
  | String c r =>
      if has_slash r then basename r
      else if Ascii.eqb c "/" then r else p
  end.

(** [os.path.join(a, b)] on POSIX, for two components. *)
Definition join (a b : string) : string :=
  match b with
  | String "/" _ => b
  | _ => if String.eqb a EmptyString || endswith a "/" then a ++ b
         else a ++ "/" ++ b
  end.

End PyStr.

(** The suffix test used three times in the source:
    [p.lower().endswith(".pdf")]. *)
Definition is_pdf_name (p : string) : bool :=
  PyStr.endswith (PyStr.lower p) ".pdf".

(** ** Exceptions *)

(** An instance of a subclass of [Exception]: its class name and [str(e)]. *)
Record exception := Exception { exc_class : string; exc_str : string }.

Definition RuntimeError (msg : string) : exception := Exception "RuntimeError" msg.
Definition TypeError (msg : string) : exception := Exception "TypeError" msg.

(** What a Python call can raise here: an [Exception], which
    [except Exception] catches, or [SystemExit], which it does not. *)
Inductive raised :=
| Exc (e : exception)
| SystemExit (msg : string).

Inductive result (A : Type) :=
| Ok (a : A)
| Raise (r : raised).
Arguments Ok {A} a.
Arguments Raise {A} r.

(** Exit status of the interpreter for the outcome of [main()]. *)
Definition exit_status {A} (r : result A) : nat :=
  match r with
  | Ok _ => 0
  | Raise _ => 1
  end.

(** ** The state-and-exception monad *)

Definition M (S A : Type) : Type := S -> result A * S.

Definition ret {S A} (a : A) : M S A := fun s => (Ok a, s).

Definition bind {S A B} (m : M S A) (k : A -> M S B) : M S B :=
  fun s =>
    match m s with
    | (Ok a, s') => k a s'
    | (Raise r, s') => (Raise r, s')
    end.

Definition raise {S A} (r : raised) : M S A := fun s => (Raise r, s).

(** [try: m  except Exception as e: h e] *)
Definition try_except {S A} (m : M S A) (h : exception -> M S A) : M S A :=
  fun s =>
    match m s with
    | (Raise (Exc e), s') => h e s'
    | other => other
    end.

Definition gets {S A} (f : S -> A) : M S A := fun s => (Ok (f s), s).
Definition modify {S} (f : S -> S) : M S unit := fun s => (Ok tt, f s).

Declare Scope py_scope.
Delimit Scope py_scope with py.
Notation "x <- m ;; k" := (bind m (fun x => k))
  (at level 100, m at next level, right associativity) : py_scope.
Notation "m ;;; k" := (bind m (fun _ => k))
  (at level 100, right associativity) : py_scope.
Local Open Scope py_scope.

(** [for x in l: body x] *)
Fixpoint for_each {S A} (l : list A) (body : A -> M S unit) : M S unit :=
  match l with
  | [] => ret tt
  | x :: l' => body x ;;; for_each l' body
  end.

(** ** The environment: files, the PDF library, standard output *)

Section Program.

(** Pages are opaque objects of the PDF library. *)
Context {page : Type}.

(** What [PdfReader(path)] gives for a file that parses: the [is_encrypted]
    flag, the effect of [decrypt(password)] ([Some e] when the call raises
    [e]), and what the loop [for page in reader.pages: writer.add_page(page)]
    meets: the pages it gets through, then the exception that stops it, if
    any. *)
Record reader := Reader {
  is_encrypted : bool;
  decrypt : string -> option exception;
  pages : list page;
  pages_raise : option exception
}.

(** The document [writer.write(f)] stores for a writer holding [ps]. *)
Definition written (ps : list page) : reader :=
  {| is_encrypted := false; decrypt := fun _ => None;
     pages := ps; pages_raise := None |}.

(** Calls that leave the program, in the order they are made. *)
Inductive event :=
| EvPrint (line : string)
| EvOpen (path : string)
| EvDecrypt (path password : string)
| EvAddPage (p : page)
| EvWrite (path : string) (ps : list page).

(** The world: [fs] maps each existing path to what [PdfReader] makes of it
    ([inl e] when opening or parsing raises [e]); [os_walk], [os_getmtime]
    and [os_getsize] answer the corresponding [os] calls ([os_walk] with the
    [(root, dirs, files)] triples in traversal order, timestamps as numbers
    of a totally ordered type); [trace] records the events so far. *)
Record world := World {
  fs : gmap string (exception + reader);
  os_walk : string -> list (string * list string * list string);
  os_getmtime : string -> exception + Z;
  os_getsize : string -> exception + Z;
  trace : list event
}.

Definition log (ev : event) (w : world) : world :=
  {| fs := fs w; os_walk := os_walk w; os_getmtime := os_getmtime w;
     os_getsize := os_getsize w; trace := trace w ++ [ev] |}.

Definition store (path : string) (r : reader) (w : world) : world :=
  {| fs := <[path := inr r]> (fs w); os_walk := os_walk w;
     os_getmtime := os_getmtime w; os_getsize := os_getsize w;
     trace := trace w |}.

(** The frame of one call of [merge_pdfs]: the world and the two locals the
    loop mutates, the [PdfWriter] (its pages) and [pages_added]. *)
Record frame := Frame {
  env : world;
  writer : list page;
  pages_added : nat
}.

Class Env (St : Type) := {
  get_world : St -> world;
  upd_world : (world -> world) -> St -> St
}.

#[export] Instance world_env : Env world :=
  {| get_world := fun w => w; upd_world := fun f w => f w |}.

#[export] Instance frame_env : Env frame :=
  {| get_world := env;
     upd_world := fun f st =>
       {| env := f (env st); writer := writer st;
          pages_added := pages_added st |} |}.

Definition emit {St} `{!Env St} (ev : event) : M St unit := modify (upd_world (log ev)).

(** [print(line)] *)
Definition print {St} `{!Env St} (line : string) : M St unit := emit (EvPrint line).

(** [os.path.exists(path)] *)
Definition os_path_exists {St} `{!Env St} (path : string) : M St bool :=
  gets (fun s => bool_decide (is_Some (fs (get_world s) !! path))).

(** [PdfReader(path)], for a path that exists. *)
Definition PdfReader {St} `{!Env St} (path : string) : M St reader :=
  emit (EvOpen path) ;;;
  f <- gets (fun s => fs (get_world s) !! path) ;;
  match f with
  | Some (inr r) => ret r
  | Some (inl e) => raise (Exc e)
  | None => raise (Exc (Exception "FileNotFoundError" path))
  end.

(** [reader.decrypt(password)] *)
Definition reader_decrypt {St} `{!Env St} (path : string) (r : reader) (password : string)
  : M St unit :=
  emit (EvDecrypt path password) ;;;
  match decrypt r password with
  | Some e => raise (Exc e)
  | None => ret tt
  end.

(** [writer.add_page(page)] *)
Definition writer_add_page (p : page) : M frame unit :=
  emit (EvAddPage p) ;;;
  modify (fun st => {| env := env st; writer := writer st ++ [p];
                       pages_added := pages_added st |}).

(** [pages_added += 1] *)
Definition incr_pages_added : M frame unit :=
  modify (fun st => {| env := env st; writer := writer st;
                       pages_added := pages_added st + 1 |}).

(** [with open(output, "wb") as f: writer.write(f)].  The write is taken
    to succeed: afterwards the path holds the document of the writer's
    pages. *)
Definition write_output (output : string) : M frame unit :=
  ps <- gets writer ;;
  emit (EvWrite output ps) ;;;
  modify (upd_world (store output (written ps))).

(** ** [merge_pdfs] (lines 44-83) *)

(** Lines 69-71, the page loop of one reader. *)
Definition add_pages (r : reader) : M frame unit :=
  for_each (pages r) (fun p => writer_add_page p ;;; incr_pages_added) ;;;
  match pages_raise r with
  | Some e => raise (Exc e)
  | None => ret tt
  end.

(** Lines 55-68.  The result is [true] when the branch ends in [continue]. *)
Definition check_encrypted (path : string) (r : reader)
    (password : option string) (strict : bool) : M frame bool :=
  if is_encrypted r then
    if PyStr.truthy_str password then
      try_except
        (reader_decrypt path r (default EmptyString password) ;;; ret false)
        (fun e =>
           print ("[WARN] Could not decrypt " ++ path ++ ": " ++ exc_str e) ;;;
           if strict then raise (Exc e) else ret true)
    else
      print ("[WARN] Encrypted PDF skipped (no password): " ++ path) ;;;
      if strict
      then raise (Exc (RuntimeError ("Encrypted PDF requires password: " ++ path)))
      else ret true
  else ret false.

(** Lines 48-76, the body of the loop over [inputs]. *)
Definition merge_one (password : option string) (strict : bool)
    (path : string) : M frame unit :=
  if negb (is_pdf_name path) then ret tt
  else
    ex <- os_path_exists path ;;
    if negb ex then print ("[WARN] Not found: " ++ path)
    else
      try_except
        (r <- PdfReader path ;;
         skip <- check_encrypted path r password strict ;;
         if skip then ret tt
         else
           add_pages r ;;;
           print ("[OK] Added " ++ PyStr.of_nat (length (pages r))
                  ++ " pages from " ++ path))
        (fun e =>
           print ("[ERROR] Failed to read " ++ path ++ ": " ++ exc_str e) ;;;
           if strict then raise (Exc e) else ret tt).

(** Lines 47-76. *)
Definition merge_loop (inputs : list string) (password : option string)
    (strict : bool) : M frame unit :=
  for_each inputs (merge_one password strict).

(** Lines 78-83. *)
Definition merge_finish (output : string) : M frame nat :=
  n <- gets pages_added ;;
  if (n =? 0)%nat
  then raise (Exc (RuntimeError "No pages added. Check inputs."))
  else
    write_output output ;;;
    print ("[DONE] Wrote " ++ output ++ " with " ++ PyStr.of_nat n ++ " pages.") ;;;
    ret n.

(** Lines 45-46: the frame a call starts in. *)
Definition enter (w : world) : frame :=
  {| env := w; writer := []; pages_added := 0 |}.

Definition merge_body (inputs : list string) (output : string)
    (password : option string) (strict : bool) : M frame nat :=
  merge_loop inputs password strict ;;; merge_finish output.

Definition merge_pdfs (inputs : list string) (output : string)
    (password : option string) (strict : bool) : M world nat :=
  fun w =>
    let (r, st) := merge_body inputs output password strict (enter w) in
    (r, env st).

(** ** [sorted], [sort_files] (lines 34-42) and [find_pdfs_in_dir] (lines 26-32) *)

Fixpoint map_m {St A B} (f : A -> M St B) (l : list A) : M St (list B) :=
  match l with
  | [] => ret []
  | x :: l' => y <- f x ;; ys <- map_m f l' ;; ret (y :: ys)
  end.

(** A stable sort of key-decorated items: an item goes in front of the first
    one whose key is not smaller. *)
Fixpoint insert_by {K A} (leb : K -> K -> bool) (x : K * A) (l : list (K * A))
  : list (K * A) :=
  match l with
  | [] => [x]
  | y :: l' => if leb (fst x) (fst y) then x :: y :: l'
               else y :: insert_by leb x l'
  end.

Fixpoint stable_sort {K A} (leb : K -> K -> bool) (l : list (K * A))
  : list (K * A) :=
  match l with
  | [] => []
  | x :: l' => insert_by leb x (stable_sort leb l')
  end.

(** [sorted(l, key=key, reverse=reverse)]: the keys are computed first, in
    list order; the sort is stable; with [reverse] the list is reversed,
    sorted and reversed again, as CPython does. *)
Definition sorted {St K A} (leb : K -> K -> bool) (key : A -> M St K)
    (l : list A) (reverse : bool) : M St (list A) :=
  ks <- map_m key l ;;
  let dec := combine ks l in
  ret (map snd (if reverse then rev (stable_sort leb (rev dec))
                else stable_sort leb dec)).

(** The key of [--sort name]: [os.path.basename(p).lower()]. *)
Definition name_key (p : string) : string := PyStr.lower (PyStr.basename p).

Definition os_path_getmtime (p : string) : M world Z :=
  w <- gets (fun w => w) ;;
  match os_getmtime w p with
  | inl e => raise (Exc e)
  | inr t => ret t
  end.

Definition os_path_getsize (p : string) : M world Z :=
  w <- gets (fun w => w) ;;
  match os_getsize w p with
  | inl e => raise (Exc e)
  | inr n => ret n
  end.

Definition sort_files (files : list string) (key : string) (reverse : bool)
  : M world (list string) :=
  if String.eqb key "name" then
    sorted String.leb (fun p => ret (name_key p)) files reverse
  else if String.eqb key "mtime" then
    sorted Z.leb os_path_getmtime files reverse
  else if String.eqb key "size" then
    sorted Z.leb os_path_getsize files reverse
  else ret files.

Definition find_pdfs_in_dir (directory : option string) : M world (list string) :=
  match directory with
  | None => raise (Exc (TypeError "expected str, bytes or os.PathLike object, not NoneType"))
  | Some d =>
      walk <- gets (fun w => os_walk w d) ;;
      ret (flat_map (fun '(root, _, files) =>
                       map (PyStr.join root) (List.filter is_pdf_name files))
                    walk)
  end.

(** ** [main] (lines 85-109) *)

(** The namespace [ap.parse_args()] returns. *)
Record args := Args {
  args_inputs : option (list string);
  args_directory : option string;
  args_output : string;
  args_sort : string;
  args_reverse : bool;
  args_password : option string;
  args_strict : bool
}.

(** Lines 97-101. *)
Definition collect (a : args) : M world (list string) :=
  if PyStr.truthy_list (args_inputs a) then
    ret (List.filter is_pdf_name (default [] (args_inputs a)))
  else
    files <- find_pdfs_in_dir (args_directory a) ;;
    sort_files files (args_sort a) (args_reverse a).

Definition main (a : args) : M world unit :=
  files <- collect a ;;
  match files with
  | [] => raise (SystemExit "No PDF files found to merge.")
  | _ :: _ =>
      print "[INFO] Files to merge in order:" ;;;
      for_each files (fun f => print (" - " ++ f)) ;;;
      _ <- merge_pdfs files (args_output a) (args_password a) (args_strict a) ;;
      ret tt
  end.

End Program.

(** * What a run leaves behind

    The vocabulary of the statements below: how a frame grows, what the
    trace of a run contains, the messages the program prints. *)

Section Observations.

Context {page : Type}.
Implicit Types (st : @frame page) (w : @world page) (r : @reader page).
Implicit Types (ps : list page) (evs : list (@event page)).

(** [advance st ps evs]: the frame [st] after the pages [ps] were appended
    to the writer and the events [evs] were traced; the files are the same. *)
Definition advance st ps evs : frame :=
  {| env := {| fs := fs (env st); os_walk := os_walk (env st);
               os_getmtime := os_getmtime (env st);
               os_getsize := os_getsize (env st);
               trace := trace (env st) ++ evs |};
     writer := writer st ++ ps;
     pages_added := pages_added st + length ps |}.

(** The events that change a file. *)
Definition is_write (ev : @event page) : bool :=
  match ev with
  | EvWrite _ _ => true
  | _ => false
  end.

(** The pages of the [add_page] calls of a trace, in order. *)
Definition added_of evs : list page :=
  flat_map (fun ev => match ev with EvAddPage p => [p] | _ => [] end) evs.

(** The lines the program prints and the errors it raises itself. *)
Definition msg_not_found (path : string) : string := "[WARN] Not found: " ++ path.
Definition msg_no_password (path : string) : string :=
  "[WARN] Encrypted PDF skipped (no password): " ++ path.
Definition msg_decrypt (path : string) (e : exception) : string :=
  "[WARN] Could not decrypt " ++ path ++ ": " ++ exc_str e.
Definition msg_error (path : string) (e : exception) : string :=
  "[ERROR] Failed to read " ++ path ++ ": " ++ exc_str e.
Definition msg_ok (path : string) (n : nat) : string :=
  "[OK] Added " ++ PyStr.of_nat n ++ " pages from " ++ path.
Definition msg_done (output : string) (n : nat) : string :=
  "[DONE] Wrote " ++ output ++ " with " ++ PyStr.of_nat n ++ " pages.".
Definition password_required (path : string) : exception :=
  RuntimeError ("Encrypted PDF requires password: " ++ path).
Definition no_pages_added : exception :=
  RuntimeError "No pages added. Check inputs.".

(** The result of a loop body that met the exception [e] under [strict]. *)
Definition fatal_if (strict : bool) (e : exception) : result unit :=
  if strict then Raise (Exc e) else Ok tt.

(** What the loop body does once the page loop is reached. *)
Definition pages_outcome (strict : bool) (path : string) r
  : result unit * list (@event page) :=
  match pages_raise r with
  | None => (Ok tt, [EvPrint (msg_ok path (length (pages r)))])
  | Some e => (fatal_if strict e, [EvPrint (msg_error path e)])
  end.

(** The pages the loop body appends for [path]: all the pages the page loop
    gets through, when it is reached; none otherwise. *)
Definition appended (password : option string) w (path : string) : list page :=
  if is_pdf_name path then
    match fs w !! path with
    | Some (inr r) =>
        if is_encrypted r then
          match password with
          | Some (String _ _ as pw) =>
              match decrypt r pw with
              | Some _ => []
              | None => pages r
              end
          | _ => []
          end
        else pages r
    | _ => []
    end
  else [].

(** A trace without a write. *)
Definition no_write evs : Prop := Forall (fun ev => is_write ev = false) evs.

(** What the loop appends for a list of inputs. *)
Definition appended_all (password : option string) w (l : list string)
  : list page :=
  concat (map (appended password w) l).

(** The frame [merge_finish] leaves after the write. *)
Definition finished (output : string) st : frame :=
  {| env := log (EvPrint (msg_done output (pages_added st)))
              (store output (written (writer st))
                 (log (EvWrite output (writer st)) (env st)));
     writer := writer st;
     pages_added := pages_added st |}.



(** A key function that reads the number [oracle p] and raises when there
    is none. *)
Definition reads (key : string -> M (@world page) Z)
    (oracle : string -> exception + Z) w : Prop :=
  forall p, key p w = match oracle p with
                      | inl e => (Raise (Exc e), w)
                      | inr t => (Ok t, w)
                      end.

(** [key] is one of the two keys that read file metadata, and [oracle] is
    what [os.path.getmtime] or [os.path.getsize] answers for it. *)
Definition stat_key w (key : string) (oracle : string -> exception + Z)
  : Prop :=
  (key = "mtime" /\ oracle = os_getmtime w)
  \/ (key = "size" /\ oracle = os_getsize w).

End Observations.

(** The order of decorated items, the items with a key equivalent to [k],
    and [sorted] on decorated items. *)
Definition key_le {K A} (leb : K -> K -> bool) (x y : K * A) : Prop :=
  leb (fst x) (fst y) = true.

Definition same_key {K A} (leb : K -> K -> bool) (k : K) (x : K * A) : bool :=
  leb k (fst x) && leb (fst x) k.

Definition sort_decorated {K A} (leb : K -> K -> bool) (reverse : bool)
    (l : list (K * A)) : list (K * A) :=
  if reverse then rev (stable_sort leb (rev l)) else stable_sort leb l.

(** * Sample files *)

Module Samples.

(** An error of the PDF library. *)
Definition boom : exception := Exception "PdfReadError" "boom".

(** A readable, unencrypted document; pages are numbers here. *)
Definition plain (ps : list nat) : reader := Reader false (fun _ => None) ps None.

(** A document whose page loop fails after two pages. *)
Definition bad_reader : reader := Reader false (fun _ => None) [5; 6] (Some boom).

(** A document encrypted with the password [secret]. *)
Definition enc_reader : reader :=
  Reader true (fun pw => if String.eqb pw "secret" then None else Some boom)
    [4] None.

(** A document encrypted with the empty password. *)
Definition open_reader : reader := Reader true (fun _ => None) [7] None.

(** [a.pdf] and [b.PDF] are readable, [junk.pdf] does not parse. *)
Definition sample_fs : gmap string (exception + reader) :=
  <["a.pdf" := inr (plain [1; 2])]>
  (<["b.PDF" := inr (plain [3])]>
  (<["bad.pdf" := inr bad_reader]>
  (<["enc.pdf" := inr enc_reader]>
  (<["open.pdf" := inr open_reader]>
  (<["junk.pdf" := inl boom]> ∅))))).

(** No directory to walk, no file metadata, nothing traced yet. *)
Definition sample_world : world :=
  {| fs := sample_fs;
     os_walk := fun _ => [];
     os_getmtime := fun p => inl (Exception "FileNotFoundError" p);
     os_getsize := fun p => inl (Exception "FileNotFoundError" p);
     trace := [] |}.

(** [-i inputs -o out.pdf --sort size --reverse] *)
Definition sample_args (inputs : list string) : args :=
  {| args_inputs := Some inputs; args_directory := None;
     args_output := "out.pdf"; args_sort := "size"; args_reverse := true;
     args_password := None; args_strict := false |}.

End Samples.

(** * A sample directory *)

Module DirSamples.

(** [docs] holds [b.pdf] and [notes.txt], its subdirectory [sub] holds
    [A.PDF] and [c.pdf]; [notes] holds no PDF; [stale] lists [gone.pdf],
    which has vanished since. *)
Definition sample_walk (d : string) : list (string * list string * list string) :=
  if String.eqb d "docs"
  then [("docs", ["sub"], ["b.pdf"; "notes.txt"]);
        ("docs/sub", [], ["A.PDF"; "c.pdf"])]
  else if String.eqb d "notes" then [("notes", [], ["todo.txt"; "pdf"])]
  else if String.eqb d "stale" then [("stale", [], ["x.pdf"; "gone.pdf"; "y.pdf"])]
  else [].

(** The files found under [docs]. *)
Definition dir_files : list string :=
  ["docs/b.pdf"; "docs/sub/A.PDF"; "docs/sub/c.pdf"].

(** Modification times; [stale/gone.pdf] has none. *)
Definition sample_mtime (p : string) : exception + Z :=
  if String.eqb p "docs/b.pdf" then inr 30%Z
  else if String.eqb p "docs/sub/A.PDF" then inr 10%Z
  else if String.eqb p "docs/sub/c.pdf" then inr 10%Z
  else if String.eqb p "stale/x.pdf" then inr 5%Z
  else inl (Exception "FileNotFoundError" p).

(** The number an oracle gives, 0 when it gives none. *)
Definition number_of (oracle : string -> exception + Z) (p : string) : Z :=
  match oracle p with
  | inr z => z
  | inl _ => 0%Z
  end.

(** Sizes in bytes. *)
Definition sample_size (p : string) : exception + Z :=
  if String.eqb p "docs/b.pdf" then inr 700%Z
  else if String.eqb p "docs/sub/A.PDF" then inr 900%Z
  else if String.eqb p "docs/sub/c.pdf" then inr 800%Z
  else inl (Exception "FileNotFoundError" p).

Definition dir_world : world :=
  {| fs := <["docs/b.pdf" := inr (Samples.plain [1; 2])]>
           (<["docs/sub/A.PDF" := inr (Samples.plain [3])]>
           (<["docs/sub/c.pdf" := inl Samples.boom]> ∅));
     os_walk := sample_walk;
     os_getmtime := sample_mtime;
     os_getsize := sample_size;
     trace := [] |}.

(** [-d directory -o out.pdf --sort key], with [--reverse] or not. *)
Definition dir_args (directory key : string) (reverse : bool) : args :=
  {| args_inputs := None; args_directory := Some directory;
     args_output := "out.pdf"; args_sort := key; args_reverse := reverse;
     args_password := None; args_strict := false |}.

End DirSamples.

(** * Properties *)

Section MergeFacts.

Context {page : Type}.
Implicit Types (st : @frame page) (w : @world page) (r : @reader page).
Implicit Types (ps : list page) (evs : list (@event page)).

(** ** Frames that grow *)

Lemma advance_nil st : advance st [] [] = st.
Proof.
  destruct st as [[f ow om os t] wr n]. unfold advance. simpl.
  rewrite !app_nil_r, Nat.add_0_r. reflexivity.
Qed.

Lemma advance_advance st ps1 evs1 ps2 evs2 :
  advance (advance st ps1 evs1) ps2 evs2 = advance st (ps1 ++ ps2) (evs1 ++ evs2).
Proof.
  unfold advance. simpl.
  rewrite <- !app_assoc, length_app, Nat.add_assoc. reflexivity.
Qed.

Lemma added_of_app evs1 evs2 : added_of (evs1 ++ evs2) = added_of evs1 ++ added_of evs2.
Proof. unfold added_of. apply flat_map_app. Qed.

Lemma added_of_add_pages ps : added_of (map EvAddPage ps) = ps.
Proof. induction ps as [|p ps IH]; simpl; [|rewrite IH]; reflexivity. Qed.

Lemma no_write_add_pages ps : Forall (fun ev => is_write ev = false) (map EvAddPage ps).
Proof. induction ps; simpl; constructor; auto. Qed.

Lemma emit_frame (ev : @event page) st : emit ev st = (Ok tt, advance st [] [ev]).
Proof.
  unfold emit, modify, advance. simpl.
  rewrite app_nil_r, Nat.add_0_r. reflexivity.
Qed.

Lemma print_frame line st : print line st = (Ok tt, advance st [] [EvPrint line]).
Proof. apply emit_frame. Qed.

(** The inner loop appends every page, in order, counting each. *)
Lemma page_loop_spec ps st :
  for_each ps (fun p => writer_add_page p ;;; incr_pages_added) st
  = (Ok tt, advance st ps (map EvAddPage ps)).
Proof.
  revert st. induction ps as [|p ps IH]; intros st; simpl.
  - unfold ret. rewrite advance_nil. reflexivity.
  - unfold bind at 1. unfold bind at 1.
    unfold writer_add_page, bind at 1. rewrite emit_frame.
    unfold modify, incr_pages_added. simpl. rewrite IH.
    f_equal. unfold advance. simpl.
    rewrite !app_nil_r, Nat.add_0_r, <- !app_assoc. simpl.
    f_equal. lia.
Qed.

Lemma add_pages_spec r st :
  add_pages r st
  = (match pages_raise r with Some e => Raise (Exc e) | None => Ok tt end,
     advance st (pages r) (map EvAddPage (pages r))).
Proof.
  unfold add_pages, bind. rewrite page_loop_spec.
  destruct (pages_raise r); reflexivity.
Qed.

(** ** One input file: the cases of the loop body *)

Ltac run_step :=
  repeat first
    [ rewrite emit_frame | rewrite print_frame | rewrite add_pages_spec
    | progress (unfold bind, try_except, gets, ret, raise; simpl) ].

Ltac frame_eq :=
  unfold advance, log; simpl;
  rewrite ?app_nil_r, ?Nat.add_0_r, <- ?app_assoc; simpl;
  try reflexivity.

Lemma merge_one_not_pdf password strict path st :
  is_pdf_name path = false ->
  merge_one password strict path st = (Ok tt, st).
Proof. intros H. unfold merge_one. rewrite H. reflexivity. Qed.

Lemma merge_one_missing password strict path st :
  is_pdf_name path = true ->
  fs (env st) !! path = None ->
  merge_one password strict path st
  = (Ok tt, advance st [] [EvPrint (msg_not_found path)]).
Proof.
  intros Hn Hf. unfold merge_one, os_path_exists. rewrite Hn. simpl.
  unfold bind at 1. unfold gets. simpl. rewrite Hf. simpl.
  apply print_frame.
Qed.

Lemma merge_one_unreadable password strict path st e :
  is_pdf_name path = true ->
  fs (env st) !! path = Some (inl e) ->
  merge_one password strict path st
  = (fatal_if strict e,
     advance st [] [EvOpen path; EvPrint (msg_error path e)]).
Proof.
  intros Hn Hf. unfold merge_one, os_path_exists. rewrite Hn. simpl.
  unfold bind at 1. unfold gets. simpl. rewrite Hf. simpl.
  unfold try_except, PdfReader. run_step. rewrite Hf. run_step.
  destruct strict; frame_eq.
Qed.

Ltac enter_file Hn Hf :=
  unfold merge_one, os_path_exists; rewrite Hn; simpl;
  unfold bind at 1; unfold gets; simpl; rewrite Hf; simpl;
  unfold try_except, PdfReader; run_step; rewrite Hf; run_step.

Lemma merge_one_no_password password strict path st r :
  is_pdf_name path = true ->
  fs (env st) !! path = Some (inr r) ->
  is_encrypted r = true ->
  PyStr.truthy_str password = false ->
  merge_one password strict path st
  = (fatal_if strict (password_required path),
     advance st []
       (EvOpen path :: EvPrint (msg_no_password path)
        :: if strict then [EvPrint (msg_error path (password_required path))]
           else [])).
Proof.
  intros Hn Hf He Hp. enter_file Hn Hf.
  unfold check_encrypted. rewrite He, Hp. run_step.
  destruct strict; frame_eq.
Qed.

Lemma merge_one_decrypt_fails pw strict path st r e :
  is_pdf_name path = true ->
  fs (env st) !! path = Some (inr r) ->
  is_encrypted r = true ->
  PyStr.truthy_str (Some pw) = true ->
  decrypt r pw = Some e ->
  merge_one (Some pw) strict path st
  = (fatal_if strict e,
     advance st []
       (EvOpen path :: EvDecrypt path pw :: EvPrint (msg_decrypt path e)
        :: if strict then [EvPrint (msg_error path e)] else [])).
Proof.
  intros Hn Hf He Hp Hd. enter_file Hn Hf.
  unfold check_encrypted. rewrite He, Hp. unfold reader_decrypt.
  run_step. rewrite Hd. run_step.
  destruct strict; frame_eq.
Qed.

Lemma merge_one_plain password strict path st r :
  is_pdf_name path = true ->
  fs (env st) !! path = Some (inr r) ->
  is_encrypted r = false ->
  merge_one password strict path st
  = (fst (pages_outcome strict path r),
     advance st (pages r)
       (EvOpen path :: map EvAddPage (pages r)
        ++ snd (pages_outcome strict path r))).
Proof.
  intros Hn Hf He. enter_file Hn Hf.
  unfold check_encrypted. rewrite He. run_step.
  unfold pages_outcome. destruct (pages_raise r); run_step.
  - destruct strict; frame_eq.
  - frame_eq.
Qed.

Lemma merge_one_decrypted pw strict path st r :
  is_pdf_name path = true ->
  fs (env st) !! path = Some (inr r) ->
  is_encrypted r = true ->
  PyStr.truthy_str (Some pw) = true ->
  decrypt r pw = None ->
  merge_one (Some pw) strict path st
  = (fst (pages_outcome strict path r),
     advance st (pages r)
       (EvOpen path :: EvDecrypt path pw :: map EvAddPage (pages r)
        ++ snd (pages_outcome strict path r))).
Proof.
  intros Hn Hf He Hp Hd. enter_file Hn Hf.
  unfold check_encrypted. rewrite He, Hp. unfold reader_decrypt.
  run_step. rewrite Hd. run_step.
  unfold pages_outcome. destruct (pages_raise r); run_step.
  - destruct strict; frame_eq.
  - frame_eq.
Qed.

(** ** One input file, in general *)

Lemma pages_outcome_trace strict path r :
  added_of (snd (pages_outcome strict path r)) = []
  /\ no_write (snd (pages_outcome strict path r))
  /\ (strict = false -> fst (pages_outcome strict path r) = Ok tt).
Proof.
  unfold pages_outcome, no_write. destruct (pages_raise r); simpl.
  - repeat split; [repeat constructor|]. intros ->. reflexivity.
  - repeat split. repeat constructor.
Qed.

Lemma merge_one_spec password strict path st :
  exists res evs,
    merge_one password strict path st
    = (res, advance st (appended password (env st) path) evs)
    /\ added_of evs = appended password (env st) path
    /\ no_write evs
    /\ (strict = false -> res = Ok tt).
Proof.
  assert (Hfatal : forall e, strict = false -> fatal_if strict e = Ok tt)
    by (intros e ->; reflexivity).
  unfold appended.
  destruct (is_pdf_name path) eqn:Hn.
  2:{ exists (Ok tt), []. rewrite advance_nil.
      rewrite merge_one_not_pdf by assumption.
      split; [reflexivity|]. split; [reflexivity|].
      split; [constructor|reflexivity]. }
  destruct (fs (env st) !! path) as [[e|r]|] eqn:Hf.
  - eexists _, _. rewrite (merge_one_unreadable _ _ _ _ e) by assumption.
    split; [reflexivity|]. split; [reflexivity|].
    split; [repeat constructor|apply Hfatal].
  - destruct (pages_outcome_trace strict path r) as (Ha & Hw & Hs).
    assert (Hread : forall pre : list (@event page),
               added_of pre = [] -> no_write pre ->
               added_of (pre ++ map EvAddPage (pages r)
                         ++ snd (pages_outcome strict path r)) = pages r
               /\ no_write (pre ++ map EvAddPage (pages r)
                            ++ snd (pages_outcome strict path r))).
    { intros pre Hp1 Hp2. split.
      - rewrite !added_of_app, added_of_add_pages, Ha, Hp1.
        simpl. apply app_nil_r.
      - apply Forall_app. split; [exact Hp2|].
        apply Forall_app. split; [apply no_write_add_pages|exact Hw]. }
    destruct (is_encrypted r) eqn:He.
    + destruct password as [[|c pw]|].
      * eexists _, _. rewrite (merge_one_no_password _ _ _ _ r) by auto.
        split; [reflexivity|]. split; [destruct strict; reflexivity|].
        split; [destruct strict; repeat constructor|apply Hfatal].
      * destruct (decrypt r (String c pw)) as [e|] eqn:Hd.
        -- eexists _, _.
           rewrite (merge_one_decrypt_fails _ _ _ _ r e) by auto.
           split; [reflexivity|]. split; [destruct strict; reflexivity|].
           split; [destruct strict; repeat constructor|apply Hfatal].
        -- eexists _, _. rewrite (merge_one_decrypted _ _ _ _ r) by auto.
           destruct (Hread [EvOpen path; EvDecrypt path (String c pw)])
             as [H1 H2]; [reflexivity|repeat constructor|].
           split; [reflexivity|]. split; [exact H1|]. split; [exact H2|exact Hs].
      * eexists _, _. rewrite (merge_one_no_password _ _ _ _ r) by auto.
        split; [reflexivity|]. split; [destruct strict; reflexivity|].
        split; [destruct strict; repeat constructor|apply Hfatal].
    + eexists _, _. rewrite (merge_one_plain _ _ _ _ r) by auto.
      destruct (Hread [EvOpen path]) as [H1 H2];
        [reflexivity|repeat constructor|].
      split; [reflexivity|]. split; [exact H1|]. split; [exact H2|exact Hs].
  - eexists _, _. rewrite merge_one_missing by assumption.
    split; [reflexivity|]. split; [reflexivity|].
    split; [repeat constructor|reflexivity].
Qed.

(** ** The loop over the inputs *)

(** The loop processes a prefix [done] of the inputs, all of them unless a
    body raised, and appends what each of them appends. *)
Lemma merge_loop_spec inputs password strict st :
  exists res done rest evs,
    inputs = done ++ rest
    /\ merge_loop inputs password strict st
       = (res, advance st (appended_all password (env st) done) evs)
    /\ added_of evs = appended_all password (env st) done
    /\ no_write evs
    /\ (res = Ok tt -> rest = [])
    /\ (strict = false -> res = Ok tt).
Proof.
  revert st. induction inputs as [|p l IH]; intros st.
  - exists (Ok tt), [], [], []. simpl. unfold ret. rewrite advance_nil.
    repeat (split; [reflexivity|]). split; [constructor|]. split; reflexivity.
  - destruct (merge_one_spec password strict p st)
      as (res1 & evs1 & H1 & Ha1 & Hw1 & Hs1).
    unfold merge_loop. simpl. unfold bind at 1. rewrite H1.
    destruct res1 as [[]|x].
    + destruct (IH (advance st (appended password (env st) p) evs1))
        as (res & dn & rest & evs & Hin & Hrun & Ha & Hw & Hok & Hs).
      exists res, (p :: dn), rest, (evs1 ++ evs).
      split; [simpl; congruence|].
      unfold merge_loop in Hrun. rewrite Hrun, advance_advance.
      split; [reflexivity|].
      split; [rewrite added_of_app, Ha1, Ha; reflexivity|].
      split; [apply Forall_app; split; assumption|].
      split; assumption.
    + exists (Raise x), [p], l, evs1.
      unfold appended_all. simpl. rewrite app_nil_r.
      split; [reflexivity|]. split; [reflexivity|]. split; [exact Ha1|].
      split; [exact Hw1|]. split; [discriminate|exact Hs1].
Qed.

(** ** The whole call *)

Lemma merge_body_unfold inputs output password strict st0 :
  merge_body inputs output password strict st0
  = match merge_loop inputs password strict st0 with
    | (Raise x, st) => (Raise x, st)
    | (Ok _, st) =>
        if (pages_added st =? 0)%nat
        then (Raise (Exc no_pages_added), st)
        else (Ok (pages_added st), finished output st)
    end.
Proof.
  unfold merge_body. unfold bind at 1.
  destruct (merge_loop inputs password strict st0) as [[[]|x] st];
    [|reflexivity].
  unfold merge_finish, bind, gets, write_output. simpl.
  destruct (pages_added st =? 0)%nat; reflexivity.
Qed.

Lemma for_each_app {S A} (l1 l2 : list A) (body : A -> M S unit) s :
  for_each (l1 ++ l2) body s
  = match for_each l1 body s with
    | (Ok _, s') => for_each l2 body s'
    | (Raise x, s') => (Raise x, s')
    end.
Proof.
  revert s. induction l1 as [|a l1 IH]; intros s; simpl.
  - reflexivity.
  - unfold bind. destruct (body a s) as [[[]|x] s']; [apply IH|reflexivity].
Qed.

(** The loop never changes the files. *)
Lemma merge_loop_fs inputs password strict st res st' :
  merge_loop inputs password strict st = (res, st') ->
  fs (env st') = fs (env st)
  /\ exists evs, trace (env st') = trace (env st) ++ evs /\ no_write evs.
Proof.
  intros H.
  destruct (merge_loop_spec inputs password strict st)
    as (res0 & dn & rest & evs & _ & Hrun & _ & Hw & _).
  rewrite Hrun in H. injection H as _ <-.
  split; [reflexivity|]. exists evs. split; [reflexivity|exact Hw].
Qed.

(** In strict mode, a loop that meets an input whose body raises does not
    finish. *)
Lemma strict_loop_raises password w path inputs :
  In path inputs ->
  (forall st, fs (env st) = fs w ->
     exists x st', merge_one password true path st = (Raise x, st')) ->
  forall st, fs (env st) = fs w ->
    exists x st', merge_loop inputs password true st = (Raise x, st').
Proof.
  intros Hin Hraise. induction inputs as [|p l IH]; [destruct Hin|].
  intros st Hst. unfold merge_loop. simpl. unfold bind at 1.
  destruct (merge_one_spec password true p st) as (res1 & evs1 & H1 & _).
  rewrite H1. destruct res1 as [[]|x]; [|eauto].
  destruct Hin as [->|Hin].
  - destruct (Hraise st Hst) as (x & st' & Hx). congruence.
  - apply IH; assumption.
Qed.

(** ** The write and the result *)


(** C3.  When the loop has finished and no page was appended, [merge_pdfs]
    raises the explicit "No pages added" error, and nothing is written: the
    files, the output path among them, are as before the call. *)
Theorem no_pages_added_raises inputs output password strict w st :
  merge_loop inputs password strict (enter w) = (Ok tt, st) ->
  pages_added st = 0 ->
  exists w' evs,
    merge_pdfs inputs output password strict w
    = (Raise (Exc (RuntimeError "No pages added. Check inputs.")), w')
    /\ fs w' = fs w
    /\ fs w' !! output = fs w !! output
    /\ trace w' = trace w ++ evs
    /\ no_write evs.
Proof.
  intros Hloop Hzero.
  destruct (merge_loop_fs _ _ _ _ _ _ Hloop) as (Hfs & evs & Htr & Hw).
  exists (env st), evs.
  unfold merge_pdfs. rewrite merge_body_unfold, Hloop, Hzero. simpl.
  simpl in Hfs, Htr. rewrite Hfs.
  repeat (split; [reflexivity|]). split; assumption.
Qed.

(** C2, as amended.  After every call the writer holds exactly the pages
    appended for the inputs the loop processed, which is every input unless
    a strict abort stopped it: for each input, all the pages its page loop
    got through (all of them for an input read without error, those before
    the failure for an input that fails part-way) and none for an input that
    is skipped or fails earlier.  [pages_added] is their number.  The write,
    if any, stores these pages, and no page is appended after it. *)
Theorem output_holds_appended_pages inputs output password strict w :
  exists proc rest evs,
    inputs = proc ++ rest
    /\ (strict = false -> rest = [])
    /\ added_of evs = appended_all password w proc
    /\ no_write evs
    /\ match merge_body inputs output password strict (enter w) with
       | (res, st) =>
           writer st = appended_all password w proc
           /\ pages_added st = length (writer st)
           /\ match res with
              | Ok n =>
                  rest = []
                  /\ n = length (writer st)
                  /\ fs (env st) !! output = Some (inr (written (writer st)))
                  /\ trace (env st)
                     = trace w ++ evs
                       ++ [EvWrite output (writer st);
                           EvPrint (msg_done output n)]
              | Raise _ => fs (env st) = fs w /\ trace (env st) = trace w ++ evs
              end
       end.
Proof.
  rewrite merge_body_unfold.
  destruct (merge_loop_spec inputs password strict (enter w))
    as (res & dn & rest & evs & Hin & Hrun & Ha & Hw & Hok & Hs).
  rewrite Hrun. exists dn, rest, evs.
  split; [exact Hin|]. split; [intros Hf; apply Hok, Hs, Hf|].
  split; [exact Ha|]. split; [exact Hw|].
  destruct res as [[]|x]; [|simpl; repeat split; reflexivity].
  simpl. destruct (length (appended_all password w dn)) as [|n] eqn:Hlen.
  - simpl. rewrite Hlen. repeat split; reflexivity.
  - simpl. rewrite Hlen, <- !app_assoc.
    split; [reflexivity|]. split; [reflexivity|].
    split; [apply Hok; reflexivity|]. split; [reflexivity|].
    split; [apply lookup_insert_eq|reflexivity].
Qed.

(** ** Valid inputs *)




(** ** Missing and encrypted inputs *)

(** C6.  A path that ends in .pdf and does not exist gets a warning and is
    skipped, whatever [strict] is: the loop goes on with the next input. *)
Theorem missing_input_is_skipped password strict path rest st :
  is_pdf_name path = true ->
  fs (env st) !! path = None ->
  merge_one password strict path st
  = (Ok tt, advance st [] [EvPrint ("[WARN] Not found: " ++ path)])
  /\ merge_loop (path :: rest) password strict st
     = merge_loop rest password strict
         (advance st [] [EvPrint ("[WARN] Not found: " ++ path)]).
Proof.
  intros Hn Hf.
  pose proof (merge_one_missing password strict path st Hn Hf) as H.
  split; [exact H|].
  unfold merge_loop. simpl. unfold bind at 1. rewrite H. reflexivity.
Qed.

Lemma strict_abort_at inputs pre path rest output password w st x evs :
  inputs = pre ++ path :: rest ->
  merge_loop pre password true (enter w) = (Ok tt, st) ->
  merge_one password true path st = (Raise x, advance st [] evs) ->
  no_write evs ->
  exists w' evs',
    merge_pdfs inputs output password true w = (Raise x, w')
    /\ fs w' = fs w
    /\ trace w' = trace w ++ evs'
    /\ no_write evs'
    /\ incl evs evs'.
Proof.
  intros -> Hpre Hone Hnw.
  destruct (merge_loop_fs _ _ _ _ _ _ Hpre) as (Hfs & evs0 & Htr & Hw0).
  exists (env (advance st [] evs)), (evs0 ++ evs).
  unfold merge_pdfs. rewrite merge_body_unfold.
  unfold merge_loop. rewrite for_each_app.
  unfold merge_loop in Hpre. rewrite Hpre. simpl.
  unfold bind at 1. rewrite Hone.
  split; [reflexivity|]. simpl. split; [exact Hfs|].
  split; [rewrite Htr, app_assoc; reflexivity|].
  split; [apply Forall_app; split; assumption|].
  apply incl_appr, incl_refl.
Qed.

(** C4.  An encrypted input met without a password: in non-strict mode a
    warning is printed, the file is skipped and the loop goes on with the
    rest; in strict mode the call raises and no file is written, and the
    exception is the explicit "password required" error when the loop gets
    to that input. *)
Theorem encrypted_without_password path r w output :
  is_pdf_name path = true ->
  fs w !! path = Some (inr r) ->
  is_encrypted r = true ->
  (forall st rest,
     fs (env st) = fs w ->
     merge_loop (path :: rest) None false st
     = merge_loop rest None false
         (advance st []
            [EvOpen path;
             EvPrint ("[WARN] Encrypted PDF skipped (no password): " ++ path)]))
  /\ (forall inputs,
        In path inputs ->
        exists x w',
          merge_pdfs inputs output None true w = (Raise x, w')
          /\ fs w' = fs w)
  /\ (forall pre rest st,
        merge_loop pre None true (enter w) = (Ok tt, st) ->
        exists w' evs,
          merge_pdfs (pre ++ path :: rest) output None true w
          = (Raise (Exc (RuntimeError
                           ("Encrypted PDF requires password: " ++ path))), w')
          /\ fs w' = fs w
          /\ trace w' = trace w ++ evs
          /\ no_write evs).
Proof.
  intros Hn Hf He.
  assert (Hone : forall strict st, fs (env st) = fs w ->
            merge_one None strict path st
            = (fatal_if strict (password_required path),
               advance st []
                 (EvOpen path :: EvPrint (msg_no_password path)
                  :: if strict
                     then [EvPrint (msg_error path (password_required path))]
                     else []))).
  { intros strict st Hst.
    apply (merge_one_no_password None strict path st r); auto; congruence. }
  split; [|split].
  - intros st rest Hst. unfold merge_loop. simpl. unfold bind at 1.
    rewrite (Hone false st Hst). reflexivity.
  - intros inputs Hin.
    destruct (strict_loop_raises None w path inputs Hin) with (st := enter w)
      as (x & st' & Hx); [|reflexivity|].
    + intros st Hst. rewrite (Hone true st Hst). eauto.
    + destruct (merge_loop_fs _ _ _ _ _ _ Hx) as (Hfs & _).
      exists x, (env st'). unfold merge_pdfs.
      rewrite merge_body_unfold, Hx. split; [reflexivity|exact Hfs].
  - intros pre rest st Hpre.
    destruct (merge_loop_fs _ _ _ _ _ _ Hpre) as (Hfs & _).
    edestruct (strict_abort_at (pre ++ path :: rest) pre path rest output
                 None w st) as (w' & evs & H1 & H2 & H3 & H4 & _);
      [reflexivity|exact Hpre|apply (Hone true st Hfs)|repeat constructor|].
    exists w', evs. auto.
Qed.


End MergeFacts.

(** * Sorting *)

(** ** The order on strings *)


Lemma string_leb_trans (a b c : string) :
  String.leb a b = true -> String.leb b c = true -> String.leb a c = true.
Proof.
  unfold String.leb. revert b c.
  induction a as [|x a IH]; intros [|y b] [|z c]; simpl; try easy.
  unfold Ascii.compare.
  destruct (N.compare_spec (N_of_ascii x) (N_of_ascii y));
    destruct (N.compare_spec (N_of_ascii y) (N_of_ascii z));
    destruct (N.compare_spec (N_of_ascii x) (N_of_ascii z));
    try easy; try (exfalso; lia).
  apply IH.
Qed.


(** ** A stable sort *)

Section StableSort.

Context {K A : Type} (leb : K -> K -> bool).
Hypothesis leb_total : forall a b, leb a b = true \/ leb b a = true.
Hypothesis leb_trans :
  forall a b c, leb a b = true -> leb b c = true -> leb a c = true.

Implicit Types (x y : K * A) (l : list (K * A)).

Lemma insert_by_perm x l : Permutation (x :: l) (insert_by leb x l).
Proof.
  induction l as [|y l IH]; simpl; [reflexivity|].
  destruct (leb (fst x) (fst y)); [reflexivity|].
  rewrite perm_swap. apply perm_skip, IH.
Qed.

Lemma stable_sort_perm l : Permutation l (stable_sort leb l).
Proof.
  induction l as [|x l IH]; simpl; [reflexivity|].
  rewrite <- insert_by_perm. apply perm_skip, IH.
Qed.

Lemma insert_by_sorted x l :
  StronglySorted (key_le leb) l -> StronglySorted (key_le leb) (insert_by leb x l).
Proof.
  induction 1 as [|y l Hs IH Hy]; simpl.
  - repeat constructor.
  - destruct (leb (fst x) (fst y)) eqn:Hxy.
    + constructor; [constructor; assumption|].
      constructor; [exact Hxy|].
      eapply List.Forall_impl; [|exact Hy].
      intros z Hz. unfold key_le in *. eauto.
    + constructor; [exact IH|].
      eapply Permutation_Forall; [apply insert_by_perm|].
      constructor; [|exact Hy].
      unfold key_le. destruct (leb_total (fst x) (fst y)); congruence.
Qed.

Lemma stable_sort_sorted l : StronglySorted (key_le leb) (stable_sort leb l).
Proof.
  induction l as [|x l IH]; simpl; [constructor|].
  apply insert_by_sorted, IH.
Qed.

Lemma insert_by_stable k x l :
  List.filter (same_key leb k) (insert_by leb x l)
  = List.filter (same_key leb k) (x :: l).
Proof.
  induction l as [|y l IH]; [reflexivity|].
  simpl insert_by. destruct (leb (fst x) (fst y)) eqn:Hxy; [reflexivity|].
  cbn [List.filter]. rewrite IH. cbn [List.filter].
  destruct (same_key leb k x) eqn:Hx, (same_key leb k y) eqn:Hy; try reflexivity.
  exfalso. unfold same_key in Hx, Hy.
  apply andb_prop in Hx as [_ Hx]. apply andb_prop in Hy as [Hy _].
  rewrite (leb_trans _ _ _ Hx Hy) in Hxy. discriminate.
Qed.

Lemma stable_sort_stable k l :
  List.filter (same_key leb k) (stable_sort leb l) = List.filter (same_key leb k) l.
Proof.
  induction l as [|x l IH]; [reflexivity|].
  simpl stable_sort. rewrite insert_by_stable. cbn [List.filter].
  rewrite IH. reflexivity.
Qed.

Lemma strongly_sorted_app (R : K * A -> K * A -> Prop) l1 l2 :
  StronglySorted R l1 -> StronglySorted R l2 ->
  (forall x y, In x l1 -> In y l2 -> R x y) ->
  StronglySorted R (l1 ++ l2).
Proof.
  intros H1 H2 H. induction H1 as [|x l1 Hs IH Hx]; simpl; [exact H2|].
  constructor.
  - apply IH. intros a b Ha Hb. apply H; [right|]; assumption.
  - apply Forall_app. split; [exact Hx|].
    apply List.Forall_forall. intros y Hy. apply H; [left; reflexivity|exact Hy].
Qed.

Lemma strongly_sorted_rev (R : K * A -> K * A -> Prop) l :
  StronglySorted R l -> StronglySorted (fun x y => R y x) (rev l).
Proof.
  induction 1 as [|x l Hs IH Hx]; simpl; [constructor|].
  apply strongly_sorted_app; [exact IH|repeat constructor|].
  intros a b Ha [<-|[]]. rewrite <- in_rev in Ha.
  rewrite List.Forall_forall in Hx. apply Hx, Ha.
Qed.

Lemma sort_decorated_perm (reverse : bool) l : Permutation l (sort_decorated leb reverse l).
Proof.
  unfold sort_decorated. destruct reverse; [|apply stable_sort_perm].
  rewrite <- Permutation_rev, <- stable_sort_perm. apply Permutation_rev.
Qed.

Lemma sort_decorated_sorted (reverse : bool) l :
  StronglySorted (fun x y => if reverse then key_le leb y x else key_le leb x y)
    (sort_decorated leb reverse l).
Proof.
  unfold sort_decorated. destruct reverse; [|apply stable_sort_sorted].
  apply strongly_sorted_rev, stable_sort_sorted.
Qed.

Lemma sort_decorated_stable (reverse : bool) k l :
  List.filter (same_key leb k) (sort_decorated leb reverse l)
  = List.filter (same_key leb k) l.
Proof.
  unfold sort_decorated. destruct reverse; [|apply stable_sort_stable].
  rewrite List.filter_rev, stable_sort_stable, List.filter_rev.
  apply rev_involutive.
Qed.

End StableSort.

(** ** [sorted] with a key that does not raise *)

Section SortFiles.

Context {page : Type}.
Implicit Types (w : @world page).

Lemma map_m_pure {St A B} (f : A -> B) (l : list A) (s : St) :
  map_m (fun a => ret (f a)) l s = (Ok (map f l), s).
Proof.
  induction l as [|a l IH]; simpl; [reflexivity|].
  unfold bind at 1. unfold ret at 1. unfold bind at 1. rewrite IH.
  reflexivity.
Qed.

Lemma map_m_state {St A B} (key : A -> M St B) (l : list A) (s : St) :
  (forall a s0, snd (key a s0) = s0) -> snd (map_m key l s) = s.
Proof.
  intros Hkey. induction l as [|a l IH]; simpl; [reflexivity|].
  unfold bind at 1. specialize (Hkey a s).
  destruct (key a s) as [[b|x] s1]; simpl in Hkey; subst s1; [|reflexivity].
  unfold bind at 1. destruct (map_m key l s) as [[bs|x] s1]; exact IH.
Qed.

Lemma sorted_state {St K A} (leb : K -> K -> bool) (key : A -> M St K)
    (l : list A) (reverse : bool) (s : St) :
  (forall a s0, snd (key a s0) = s0) -> snd (sorted leb key l reverse s) = s.
Proof.
  intros Hkey. unfold sorted, bind.
  pose proof (map_m_state key l s Hkey) as H.
  destruct (map_m key l s) as [[ks|x] s1]; exact H.
Qed.

Lemma sorted_pure {St K A} (leb : K -> K -> bool) (f : A -> K)
    (l : list A) (reverse : bool) (s : St) :
  sorted leb (fun a => ret (f a)) l reverse s
  = (Ok (map snd (sort_decorated leb reverse (combine (map f l) l))), s).
Proof. unfold sorted, bind. rewrite map_m_pure. reflexivity. Qed.

Lemma snd_decorate {K A} (f : A -> K) (l : list A) :
  map snd (combine (map f l) l) = l.
Proof. induction l as [|a l IH]; simpl; [|rewrite IH]; reflexivity. Qed.

Lemma decorate_keys {K A} (f : A -> K) (l : list A) :
  Forall (fun x => fst x = f (snd x)) (combine (map f l) l).
Proof. induction l as [|a l IH]; simpl; constructor; auto. Qed.

Lemma sorted_undecorate {K A} (f : A -> K) (R : K -> K -> Prop)
    (d : list (K * A)) :
  Forall (fun x => fst x = f (snd x)) d ->
  StronglySorted (fun x y => R (fst x) (fst y)) d ->
  StronglySorted (fun a b => R (f a) (f b)) (map snd d).
Proof.
  intros Hd Hs. induction Hs as [|x d Hs IH Hx]; simpl; [constructor|].
  inversion Hd as [|? ? Hk Hd']; subst.
  constructor; [apply IH, Hd'|].
  apply Forall_map. rewrite List.Forall_forall in *.
  intros y Hy. rewrite <- Hk, <- (Hd' y Hy). apply Hx, Hy.
Qed.

Lemma filter_undecorate {K A} (f : A -> K) (P : K -> bool) (d : list (K * A)) :
  Forall (fun x => fst x = f (snd x)) d ->
  List.filter (fun a => P (f a)) (map snd d)
  = map snd (List.filter (fun x => P (fst x)) d).
Proof.
  induction 1 as [|x d Hx _ IH]; simpl; [reflexivity|].
  rewrite <- Hx, IH. destruct (P (fst x)); reflexivity.
Qed.

Lemma filter_ext_bool {A} (f g : A -> bool) (l : list A) :
  (forall a, f a = g a) -> List.filter f l = List.filter g l.
Proof.
  intros H. induction l as [|a l IH]; simpl; [reflexivity|].
  rewrite H, IH. reflexivity.
Qed.



End SortFiles.

(** * [main] *)

Section MainFacts.

Context {page : Type}.
Implicit Types (w : @world page).

(** Collecting the candidates reads the world and leaves it as it is. *)
Lemma collect_world a w : snd (collect a w) = w.
Proof.
  unfold collect. destruct (PyStr.truthy_list (args_inputs a)); [reflexivity|].
  unfold bind. destruct (args_directory a) as [d|]; [|reflexivity].
  simpl. unfold sort_files.
  destruct (String.eqb (args_sort a) "name"); [apply sorted_state; reflexivity|].
  destruct (String.eqb (args_sort a) "mtime").
  { apply sorted_state. intros p s. unfold os_path_getmtime, bind, gets.
    destruct (os_getmtime s p); reflexivity. }
  destruct (String.eqb (args_sort a) "size"); [|reflexivity].
  apply sorted_state. intros p s. unfold os_path_getsize, bind, gets.
  destruct (os_getsize s p); reflexivity.
Qed.

(** C8.  With [-i], the candidates are the given list without the entries
    whose name does not end in .pdf, in the given order, whatever the files
    on disk and the sort options are; when some remain, they are what [main]
    hands to [merge_pdfs]. *)
Theorem explicit_list_candidates a l w :
  args_inputs a = Some l ->
  l <> [] ->
  collect a w = (Ok (List.filter is_pdf_name l), w)
  /\ (List.filter is_pdf_name l <> [] ->
      main a w
      = (print "[INFO] Files to merge in order:" ;;;
         for_each (List.filter is_pdf_name l) (fun f => print (" - " ++ f)) ;;;
         _ <- merge_pdfs (List.filter is_pdf_name l) (args_output a)
                (args_password a) (args_strict a) ;;
         ret tt) w).
Proof.
  intros Hi Hl.
  assert (Hc : collect a w = (Ok (List.filter is_pdf_name l), w)).
  { unfold collect. rewrite Hi. destruct l; [congruence|reflexivity]. }
  split; [exact Hc|]. intros Hne.
  unfold main. unfold bind at 1. rewrite Hc.
  destruct (List.filter is_pdf_name l); [congruence|reflexivity].
Qed.

(** C9.  When no candidate is left, [main] raises [SystemExit] with a
    message, the exit status is not zero, and nothing else has happened:
    [merge_pdfs] is not called, so the trace and the files are unchanged. *)
Theorem no_candidates_exit a w w' :
  collect a w = (Ok [], w') ->
  main a w = (Raise (SystemExit "No PDF files found to merge."), w)
  /\ exit_status (fst (main a w)) <> 0
  /\ w' = w.
Proof.
  intros Hc. pose proof (collect_world a w) as Hw. rewrite Hc in Hw.
  simpl in Hw. subst w'.
  assert (Hm : main a w = (Raise (SystemExit "No PDF files found to merge."), w)).
  { unfold main. unfold bind at 1. rewrite Hc. reflexivity. }
  split; [exact Hm|]. rewrite Hm. simpl. split; [discriminate|reflexivity].
Qed.

End MainFacts.

(** * Concrete runs *)

Module Runs.

Import Samples.


(** The only input fails after two of its pages were appended; the call
    still returns 2 and writes these two pages. *)
Lemma failed_input_contributes_pages :
  pages_raise bad_reader = Some boom
  /\ fst (merge_pdfs ["bad.pdf"] "out.pdf" None false sample_world) = Ok 2
  /\ fs (snd (merge_pdfs ["bad.pdf"] "out.pdf" None false sample_world))
     !! "out.pdf" = Some (inr (written [5; 6]))
  /\ trace (snd (merge_pdfs ["bad.pdf"] "out.pdf" None false sample_world))
     = [EvOpen "bad.pdf"; EvAddPage 5; EvAddPage 6;
        EvPrint "[ERROR] Failed to read bad.pdf: boom";
        EvWrite "out.pdf" [5; 6];
        EvPrint "[DONE] Wrote out.pdf with 2 pages."].
Proof. repeat split; reflexivity. Qed.

Lemma no_pages_added_raises_witness :
  merge_loop ["missing.pdf"; "enc.pdf"; "notes.txt"] None false
    (enter sample_world)
  = (Ok tt,
     advance (enter sample_world) []
       [EvPrint "[WARN] Not found: missing.pdf"; EvOpen "enc.pdf";
        EvPrint "[WARN] Encrypted PDF skipped (no password): enc.pdf"])
  /\ exists w' evs,
       merge_pdfs ["missing.pdf"; "enc.pdf"; "notes.txt"] "out.pdf" None false
         sample_world
       = (Raise (Exc (RuntimeError "No pages added. Check inputs.")), w')
       /\ fs w' = fs sample_world
       /\ fs w' !! "out.pdf" = fs sample_world !! "out.pdf"
       /\ trace w' = trace sample_world ++ evs
       /\ no_write evs.
Proof.
  assert (H : merge_loop ["missing.pdf"; "enc.pdf"; "notes.txt"] None false
                (enter sample_world)
              = (Ok tt,
                 advance (enter sample_world) []
                   [EvPrint "[WARN] Not found: missing.pdf"; EvOpen "enc.pdf";
                    EvPrint "[WARN] Encrypted PDF skipped (no password): enc.pdf"]))
    by reflexivity.
  split; [exact H|].
  apply (no_pages_added_raises _ "out.pdf" None false sample_world _ H).
  reflexivity.
Defined.

Lemma encrypted_without_password_witness :
  is_pdf_name "enc.pdf" = true
  /\ fs sample_world !! "enc.pdf" = Some (inr enc_reader)
  /\ is_encrypted enc_reader = true
  /\ merge_loop ["enc.pdf"; "a.pdf"] None false (enter sample_world)
     = merge_loop ["a.pdf"] None false
         (advance (enter sample_world) []
            [EvOpen "enc.pdf";
             EvPrint "[WARN] Encrypted PDF skipped (no password): enc.pdf"])
  /\ exists w' evs,
       merge_pdfs (["a.pdf"] ++ "enc.pdf" :: ["b.PDF"]) "out.pdf" None true
         sample_world
       = (Raise (Exc (RuntimeError "Encrypted PDF requires password: enc.pdf")),
          w')
       /\ fs w' = fs sample_world
       /\ trace w' = trace sample_world ++ evs
       /\ no_write evs.
Proof.
  assert (H1 : is_pdf_name "enc.pdf" = true) by reflexivity.
  assert (H2 : fs sample_world !! "enc.pdf" = Some (inr enc_reader))
    by reflexivity.
  assert (H3 : is_encrypted enc_reader = true) by reflexivity.
  destruct (encrypted_without_password "enc.pdf" enc_reader sample_world
              "out.pdf" H1 H2 H3) as (Hskip & _ & Hstrict).
  repeat (split; [assumption|]). split.
  - apply (Hskip (enter sample_world) ["a.pdf"]). reflexivity.
  - apply (Hstrict ["a.pdf"] ["b.PDF"]
             (snd (merge_loop ["a.pdf"] None true (enter sample_world)))).
    reflexivity.
Defined.



Lemma missing_input_is_skipped_witness :
  is_pdf_name "missing.pdf" = true
  /\ fs (env (enter sample_world)) !! "missing.pdf" = None
  /\ merge_one None true "missing.pdf" (enter sample_world)
     = (Ok tt,
        advance (enter sample_world) []
          [EvPrint ("[WARN] Not found: " ++ "missing.pdf")])
  /\ merge_loop ("missing.pdf" :: ["a.pdf"]) None true (enter sample_world)
     = merge_loop ["a.pdf"] None true
         (advance (enter sample_world) []
            [EvPrint ("[WARN] Not found: " ++ "missing.pdf")]).
Proof.
  assert (H1 : is_pdf_name "missing.pdf" = true) by reflexivity.
  assert (H2 : fs (env (enter sample_world)) !! "missing.pdf" = None)
    by reflexivity.
  split; [exact H1|]. split; [exact H2|].
  apply (missing_input_is_skipped None true "missing.pdf" ["a.pdf"]
           (enter sample_world) H1 H2).
Defined.

Lemma explicit_list_candidates_witness :
  args_inputs (sample_args ["b.PDF"; "notes.txt"; "missing.pdf"; "a.pdf"])
  = Some ["b.PDF"; "notes.txt"; "missing.pdf"; "a.pdf"]
  /\ ["b.PDF"; "notes.txt"; "missing.pdf"; "a.pdf"] <> []
  /\ collect (sample_args ["b.PDF"; "notes.txt"; "missing.pdf"; "a.pdf"])
       sample_world
     = (Ok ["b.PDF"; "missing.pdf"; "a.pdf"], sample_world)
  /\ main (sample_args ["b.PDF"; "notes.txt"; "missing.pdf"; "a.pdf"])
       sample_world
     = (print "[INFO] Files to merge in order:" ;;;
        for_each ["b.PDF"; "missing.pdf"; "a.pdf"]
          (fun f => print (" - " ++ f)) ;;;
        _ <- merge_pdfs ["b.PDF"; "missing.pdf"; "a.pdf"] "out.pdf" None false ;;
        ret tt) sample_world.
Proof.
  assert (H1 : args_inputs
                 (sample_args ["b.PDF"; "notes.txt"; "missing.pdf"; "a.pdf"])
               = Some ["b.PDF"; "notes.txt"; "missing.pdf"; "a.pdf"])
    by reflexivity.
  assert (H2 : ["b.PDF"; "notes.txt"; "missing.pdf"; "a.pdf"] <> [])
    by discriminate.
  destruct (explicit_list_candidates _ _ sample_world H1 H2) as [Hc Hm].
  split; [exact H1|]. split; [exact H2|]. split; [exact Hc|].
  apply Hm. discriminate.
Defined.

Lemma no_candidates_exit_witness :
  collect (sample_args ["notes.txt"; "scan.jpg"]) sample_world
  = (Ok [], sample_world)
  /\ main (sample_args ["notes.txt"; "scan.jpg"]) sample_world
     = (Raise (SystemExit "No PDF files found to merge."), sample_world)
  /\ exit_status (fst (main (sample_args ["notes.txt"; "scan.jpg"])
                         sample_world)) <> 0
  /\ sample_world = sample_world.
Proof.
  assert (H : collect (sample_args ["notes.txt"; "scan.jpg"]) sample_world
              = (Ok [], sample_world)) by reflexivity.
  split; [exact H|].
  apply (no_candidates_exit _ sample_world sample_world H).
Defined.

End Runs.

(** * File names *)

Section FileNames.

Lemma string_length_app (a b : string) :
  String.length (a ++ b) = String.length a + String.length b.
Proof. induction a as [|c a IH]; simpl; [|rewrite IH]; reflexivity. Qed.

Lemma substring_skip (a b : string) (k m : nat) :
  substring (String.length a + k) m (a ++ b) = substring k m b.
Proof. induction a as [|c a IH]; simpl; [reflexivity|exact IH]. Qed.

Lemma lower_app (a b : string) :
  PyStr.lower (a ++ b) = (PyStr.lower a ++ PyStr.lower b)%string.
Proof. induction a as [|c a IH]; simpl; [|rewrite IH]; reflexivity. Qed.

Lemma lower_length (a : string) :
  String.length (PyStr.lower a) = String.length a.
Proof. induction a as [|c a IH]; simpl; [|rewrite IH]; reflexivity. Qed.

(** A suffix test that holds for [b] holds for anything that ends in [b]. *)
Lemma endswith_app (a b suf : string) :
  PyStr.endswith b suf = true -> PyStr.endswith (a ++ b) suf = true.
Proof.
  unfold PyStr.endswith. intros H.
  apply andb_prop in H as [Hle Heq]. apply Nat.leb_le in Hle.
  rewrite string_length_app. apply andb_true_intro. split.
  - apply Nat.leb_le. lia.
  - replace (String.length a + String.length b - String.length suf)
      with (String.length a + (String.length b - String.length suf)) by lia.
    rewrite substring_skip. exact Heq.
Qed.

Lemma is_pdf_name_app (a b : string) :
  is_pdf_name b = true -> is_pdf_name (a ++ b) = true.
Proof.
  unfold is_pdf_name. rewrite lower_app. apply endswith_app.
Qed.

(** [os.path.join(a, b)] ends in [b]. *)
Lemma join_suffix (a b : string) :
  exists pre, PyStr.join a b = (pre ++ b)%string.
Proof.
  unfold PyStr.join.
  assert (H : exists pre,
            (if String.eqb a EmptyString || PyStr.endswith a "/"
             then a ++ b else a ++ "/" ++ b)%string = (pre ++ b)%string).
  { destruct (String.eqb a EmptyString || PyStr.endswith a "/").
    - exists a. reflexivity.
    - exists (a ++ "/")%string. clear.
      induction a as [|c a IH]; [reflexivity|].
      change (String c (a ++ "/" ++ b) = String c ((a ++ "/") ++ b))%string.
      rewrite IH. reflexivity. }
  destruct b as [|c b]; [exact H|].
  destruct c as [[] [] [] [] [] [] [] []]; try exact H.
  exists EmptyString. reflexivity.
Qed.

Lemma is_pdf_name_join (root f : string) :
  is_pdf_name f = true -> is_pdf_name (PyStr.join root f) = true.
Proof.
  intros H. destruct (join_suffix root f) as [pre ->].
  apply is_pdf_name_app, H.
Qed.

Lemma substring_all (s : string) : substring 0 (String.length s) s = s.
Proof. induction s as [|c s IH]; simpl; [|rewrite IH]; reflexivity. Qed.

Lemma substring_split (s : string) (k : nat) :
  k <= String.length s ->
  s = (substring 0 k s ++ substring k (String.length s - k) s)%string.
Proof.
  revert k. induction s as [|c s IH]; intros k Hk.
  - simpl in Hk. replace k with 0 by lia. reflexivity.
  - destruct k as [|k].
    + change (String c s = String c (substring 0 (String.length s) s)).
      rewrite substring_all. reflexivity.
    + simpl in Hk.
      change (String c s
              = String c (substring 0 k s
                          ++ substring k (String.length s - k) s)%string).
      rewrite <- IH by lia. reflexivity.
Qed.

Lemma endswith_split (a suf : string) :
  PyStr.endswith a suf = true -> exists pre, a = (pre ++ suf)%string.
Proof.
  unfold PyStr.endswith. intros H.
  apply andb_prop in H as [Hle Heq]. apply Nat.leb_le in Hle.
  apply String.eqb_eq in Heq.
  exists (substring 0 (String.length a - String.length suf) a).
  pose proof (substring_split a (String.length a - String.length suf)) as H.
  replace (String.length a - (String.length a - String.length suf))
    with (String.length suf) in H by lia.
  rewrite Heq in H. apply H. lia.
Qed.

Lemma basename_no_slash (f : string) :
  PyStr.has_slash f = false -> PyStr.basename f = f.
Proof.
  destruct f as [|c f]; [reflexivity|]. simpl. intros H.
  apply orb_false_elim in H as [Hc Hf]. rewrite Hf, Hc. reflexivity.
Qed.

Lemma has_slash_app (a b : string) :
  PyStr.has_slash (a ++ b) = PyStr.has_slash a || PyStr.has_slash b.
Proof.
  induction a as [|c a IH]; [reflexivity|].
  change (Ascii.eqb c "/" || PyStr.has_slash (a ++ b)
          = Ascii.eqb c "/" || PyStr.has_slash a || PyStr.has_slash b).
  rewrite IH, orb_assoc. reflexivity.
Qed.

Lemma basename_after_slash (a f : string) :
  PyStr.has_slash f = false -> PyStr.basename (a ++ String "/" f) = f.
Proof.
  intros Hf. induction a as [|c a IH].
  - change (PyStr.basename (String "/" f) = f). simpl. rewrite Hf. reflexivity.
  - change (PyStr.basename (String c (a ++ String "/" f)) = f). simpl.
    rewrite has_slash_app. simpl. rewrite orb_true_r. exact IH.
Qed.

(** [os.path.basename(os.path.join(root, f))] is [f] for a file name [f],
    which has no slash. *)
Lemma basename_join (root f : string) :
  PyStr.has_slash f = false -> PyStr.basename (PyStr.join root f) = f.
Proof.
  intros Hf. unfold PyStr.join.
  assert (H : PyStr.basename
                (if String.eqb root EmptyString || PyStr.endswith root "/"
                 then root ++ f else root ++ "/" ++ f)%string = f).
  { destruct (String.eqb_spec root EmptyString) as [->|Hne]; simpl.
    - apply basename_no_slash, Hf.
    - destruct (PyStr.endswith root "/") eqn:He.
      + apply endswith_split in He as [pre ->].
        replace ((pre ++ "/") ++ f)%string with (pre ++ String "/" f)%string.
        * apply basename_after_slash, Hf.
        * clear. induction pre as [|c pre IH]; [reflexivity|].
          change (String c (pre ++ String "/" f)
                  = String c ((pre ++ "/") ++ f))%string.
          rewrite IH. reflexivity.
      + apply (basename_after_slash root f Hf). }
  destruct f as [|c f]; [exact H|].
  simpl in Hf. apply orb_false_elim in Hf as [Hc _].
  destruct c as [[] [] [] [] [] [] [] []]; try exact H. discriminate Hc.
Qed.

End FileNames.

(** * Directory scan *)

Section Discovery.

Context {page : Type}.
Implicit Types (w : @world page).

Lemma find_pdfs_in_dir_unfold d w :
  find_pdfs_in_dir (Some d) w
  = (Ok (flat_map (fun '(root, _, files) =>
                     map (PyStr.join root) (List.filter is_pdf_name files))
                  (os_walk w d)), w).
Proof. reflexivity. Qed.

(** X1.  [find_pdfs_in_dir] of a directory name never raises and leaves the
    world alone, and every path it returns passes the suffix test: the
    re-check at the head of the merge loop skips none of them. *)
Theorem find_pdfs_in_dir_pdf_names d w :
  exists l,
    find_pdfs_in_dir (Some d) w = (Ok l, w)
    /\ Forall (fun p => is_pdf_name p = true) l
    /\ List.filter is_pdf_name l = l.
Proof.
  rewrite find_pdfs_in_dir_unfold. eexists. split; [reflexivity|].
  assert (H : Forall (fun p => is_pdf_name p = true)
                (flat_map (fun '(root, _, files) =>
                             map (PyStr.join root)
                               (List.filter is_pdf_name files))
                          (os_walk w d))).
  { induction (os_walk w d) as [|[[root dirs] files] t IH]; simpl;
      [constructor|].
    apply Forall_app. split; [|exact IH].
    apply Forall_map. apply List.Forall_forall. intros f Hf.
    apply List.filter_In in Hf as [_ Hf]. apply is_pdf_name_join, Hf. }
  split; [exact H|].
  induction H as [|p l Hp _ IH]; simpl; [reflexivity|].
  rewrite Hp, IH. reflexivity.
Qed.

(** X2.  For directory entries, which hold no slash, the base names of the
    paths [find_pdfs_in_dir] returns are the entries that end in .pdf, in
    traversal order; the sort key of [--sort name] of each is its lower-cased
    entry name, whatever the directory. *)
Theorem find_pdfs_in_dir_base_names d w :
  Forall (fun '(_, _, files) =>
            Forall (fun f => PyStr.has_slash f = false) files) (os_walk w d) ->
  exists l,
    find_pdfs_in_dir (Some d) w = (Ok l, w)
    /\ map PyStr.basename l
       = List.filter is_pdf_name
           (flat_map (fun '(_, _, files) => files) (os_walk w d))
    /\ map name_key l
       = map PyStr.lower
           (List.filter is_pdf_name
              (flat_map (fun '(_, _, files) => files) (os_walk w d))).
Proof.
  intros Hw. rewrite find_pdfs_in_dir_unfold. eexists. split; [reflexivity|].
  assert (H : map PyStr.basename
                (flat_map (fun '(root, _, files) =>
                             map (PyStr.join root)
                               (List.filter is_pdf_name files))
                          (os_walk w d))
              = List.filter is_pdf_name
                  (flat_map (fun '(_, _, files) => files) (os_walk w d))).
  { induction Hw as [|[[root dirs] files] t Hf _ IH]; simpl; [reflexivity|].
    rewrite map_app, List.filter_app, IH. f_equal.
    clear IH. induction Hf as [|f fl Hs _ IHf]; simpl; [reflexivity|].
    destruct (is_pdf_name f); [|exact IHf].
    simpl. rewrite IHf, basename_join by exact Hs. reflexivity. }
  split; [exact H|].
  unfold name_key. rewrite <- H, map_map. reflexivity.
Qed.

End Discovery.

(** * [sorted] in general *)

Section SortedFacts.

Context {St K A : Type} (leb : K -> K -> bool).
Hypothesis leb_total : forall a b, leb a b = true \/ leb b a = true.
Hypothesis leb_trans :
  forall a b c, leb a b = true -> leb b c = true -> leb a c = true.

Lemma map_m_ok (key : A -> M St K) (f : A -> K) (l : list A) (s : St) :
  (forall a, In a l -> key a s = (Ok (f a), s)) ->
  map_m key l s = (Ok (map f l), s).
Proof.
  induction l as [|a l IH]; intros H; simpl; [reflexivity|].
  unfold bind at 1. rewrite (H a) by (left; reflexivity).
  unfold bind at 1. rewrite IH by (intros b Hb; apply H; right; exact Hb).
  reflexivity.
Qed.

Lemma map_m_first_error (key : A -> M St K) (pre rest : list A) (p : A)
    (x : raised) (s : St) :
  (forall a, In a pre -> exists k, key a s = (Ok k, s)) ->
  key p s = (Raise x, s) ->
  map_m key (pre ++ p :: rest) s = (Raise x, s).
Proof.
  intros Hpre Hp. induction pre as [|a pre IH]; simpl.
  - unfold bind. rewrite Hp. reflexivity.
  - destruct (Hpre a) as [k Hk]; [left; reflexivity|].
    unfold bind at 1. rewrite Hk. unfold bind at 1.
    rewrite IH by (intros b Hb; apply Hpre; right; exact Hb).
    reflexivity.
Qed.

Lemma map_m_length (key : A -> M St K) (l : list A) (s s' : St) ks :
  map_m key l s = (Ok ks, s') -> length ks = length l.
Proof.
  revert s s' ks. induction l as [|a l IH]; intros s s' ks; simpl.
  - intros [= <- _]. reflexivity.
  - unfold bind at 1. destruct (key a s) as [[k|x] s1]; [|discriminate].
    unfold bind at 1. destruct (map_m key l s1) as [[ks1|x] s2] eqn:E;
      [|discriminate].
    intros [= <- _]. simpl. f_equal. eapply IH, E.
Qed.

Lemma snd_combine (ks : list K) (l : list A) :
  length ks = length l -> map snd (combine ks l) = l.
Proof.
  revert ks. induction l as [|a l IH]; intros [|k ks] H; simpl in *;
    try discriminate; [reflexivity|].
  rewrite IH by lia. reflexivity.
Qed.

(** Whatever the key function does, a [sorted] that returns gives back the
    items it was given. *)
Lemma sorted_perm (key : A -> M St K) (l : list A) (reverse : bool)
    (s s' : St) out :
  sorted leb key l reverse s = (Ok out, s') -> Permutation l out.
Proof.
  unfold sorted, bind.
  destruct (map_m key l s) as [[ks|x] s1] eqn:E; [|discriminate].
  intros [= <- _]. apply map_m_length in E.
  rewrite <- (snd_combine ks l E) at 1.
  apply Permutation_map, sort_decorated_perm.
Qed.

(** The list [sorted] returns for the keys [f]. *)
Lemma sorted_ok (key : A -> M St K) (f : A -> K) (l : list A)
    (reverse : bool) (s : St) :
  (forall a, In a l -> key a s = (Ok (f a), s)) ->
  sorted leb key l reverse s
  = (Ok (map snd (sort_decorated leb reverse (combine (map f l) l))), s).
Proof.
  intros H. unfold sorted, bind. rewrite (map_m_ok key f l s H). reflexivity.
Qed.

Lemma sorted_first_error (key : A -> M St K) (pre rest : list A) (p : A)
    (x : raised) (reverse : bool) (s : St) :
  (forall a, In a pre -> exists k, key a s = (Ok k, s)) ->
  key p s = (Raise x, s) ->
  sorted leb key (pre ++ p :: rest) reverse s = (Raise x, s).
Proof.
  intros Hpre Hp. unfold sorted, bind.
  rewrite (map_m_first_error key pre rest p x s Hpre Hp). reflexivity.
Qed.

Lemma stable_sort_sorted_id (d : list (K * A)) :
  StronglySorted (key_le leb) d -> stable_sort leb d = d.
Proof.
  induction 1 as [|x d Hs IH Hx]; simpl; [reflexivity|].
  rewrite IH. destruct Hx as [|y d Hxy _]; simpl; [reflexivity|].
  unfold key_le in Hxy. rewrite Hxy. reflexivity.
Qed.

Lemma sort_decorated_sorted_id (reverse : bool) (d : list (K * A)) :
  StronglySorted (fun x y => if reverse then key_le leb y x else key_le leb x y)
    d ->
  sort_decorated leb reverse d = d.
Proof.
  unfold sort_decorated. destruct reverse; intros H.
  - rewrite stable_sort_sorted_id; [apply rev_involutive|].
    apply (strongly_sorted_rev (fun x y => key_le leb y x)), H.
  - apply stable_sort_sorted_id, H.
Qed.

Lemma redecorate (f : A -> K) (d : list (K * A)) :
  Forall (fun x => fst x = f (snd x)) d ->
  combine (map f (map snd d)) (map snd d) = d.
Proof.
  induction 1 as [|[k a] d Hx _ IH]; simpl; [reflexivity|].
  simpl in Hx. rewrite IH, <- Hx. reflexivity.
Qed.

(** What [sorted] returns for the keys [f]: the same items, in key order,
    items with equivalent keys in their original order; sorting the result
    again changes nothing. *)
Lemma sort_on_spec (f : A -> K) (l : list A) (reverse : bool) :
  let out := map snd (sort_decorated leb reverse (combine (map f l) l)) in
  Permutation l out
  /\ StronglySorted
       (fun a b => if reverse then leb (f b) (f a) = true
                   else leb (f a) (f b) = true) out
  /\ (forall k,
        List.filter (fun a => leb k (f a) && leb (f a) k) out
        = List.filter (fun a => leb k (f a) && leb (f a) k) l)
  /\ map snd (sort_decorated leb reverse (combine (map f out) out)) = out.
Proof.
  intros out. subst out. set (d := combine (map f l) l).
  assert (Hd : Forall (fun x => fst x = f (snd x))
                 (sort_decorated leb reverse d)).
  { eapply Permutation_Forall; [apply sort_decorated_perm|].
    apply decorate_keys. }
  pose proof (sort_decorated_sorted leb leb_total leb_trans reverse d) as Hs.
  split.
  { rewrite <- (snd_decorate f l) at 1.
    apply Permutation_map, sort_decorated_perm. }
  split.
  { destruct reverse.
    - apply (sorted_undecorate f (fun a b => leb b a = true) _ Hd Hs).
    - apply (sorted_undecorate f (fun a b => leb a b = true) _ Hd Hs). }
  split.
  { intros k.
    rewrite (filter_undecorate f (fun c => leb k c && leb c k) _ Hd).
    change (fun x : K * A => leb k (fst x) && leb (fst x) k)
      with (@same_key K A leb k).
    rewrite (sort_decorated_stable leb leb_trans).
    unfold same_key.
    rewrite <- (filter_undecorate f (fun c => leb k c && leb c k))
      by apply decorate_keys.
    unfold d. rewrite snd_decorate. reflexivity. }
  rewrite (redecorate f _ Hd).
  rewrite (sort_decorated_sorted_id reverse _ Hs). reflexivity.
Qed.

End SortedFacts.

(** * [sort_files] by mtime and size, and for every key *)

Section SortFilesFacts.

Context {page : Type}.
Implicit Types (w : @world page).

Lemma Zleb_total (a b : Z) : Z.leb a b = true \/ Z.leb b a = true.
Proof. destruct (Z.leb_spec a b); [left; reflexivity|right]. apply Z.leb_le. lia. Qed.

Lemma Zleb_trans (a b c : Z) :
  Z.leb a b = true -> Z.leb b c = true -> Z.leb a c = true.
Proof. rewrite !Z.leb_le. lia. Qed.

Lemma Zleb_both (a b : Z) : Z.leb a b && Z.leb b a = Z.eqb a b.
Proof.
  destruct (Z.eqb_spec a b) as [->|Hne].
  - rewrite Z.leb_refl. reflexivity.
  - destruct (Z.leb_spec a b), (Z.leb_spec b a); try reflexivity. lia.
Qed.

Lemma getmtime_reads w : reads os_path_getmtime (os_getmtime w) w.
Proof.
  intros p. unfold os_path_getmtime, bind, gets.
  destruct (os_getmtime w p); reflexivity.
Qed.

Lemma getsize_reads w : reads os_path_getsize (os_getsize w) w.
Proof.
  intros p. unfold os_path_getsize, bind, gets.
  destruct (os_getsize w p); reflexivity.
Qed.

Lemma sort_files_stat w key oracle :
  stat_key w key oracle ->
  exists k,
    reads k oracle w
    /\ forall files reverse,
         sort_files files key reverse w = sorted Z.leb k files reverse w.
Proof.
  intros [[-> ->]|[-> ->]].
  - exists os_path_getmtime. split; [apply getmtime_reads|reflexivity].
  - exists os_path_getsize. split; [apply getsize_reads|reflexivity].
Qed.

Lemma sort_files_world files key (reverse : bool) w :
  snd (sort_files files key reverse w) = w.
Proof.
  unfold sort_files.
  destruct (String.eqb key "name"); [apply sorted_state; reflexivity|].
  destruct (String.eqb key "mtime").
  { apply sorted_state. intros p s. unfold os_path_getmtime, bind, gets.
    destruct (os_getmtime s p); reflexivity. }
  destruct (String.eqb key "size"); [|reflexivity].
  apply sorted_state. intros p s. unfold os_path_getsize, bind, gets.
  destruct (os_getsize s p); reflexivity.
Qed.

(** X3.  With key [mtime] or [size], when the metadata of every file can be
    read, [sort_files] returns the same files ordered by that number,
    ascending, or descending with [reverse]; files with the same number keep
    their original relative order, in both directions. *)
Theorem sort_files_by_stat files (reverse : bool) w key oracle (t : string -> Z) :
  stat_key w key oracle ->
  (forall p, In p files -> oracle p = inr (t p)) ->
  exists out,
    sort_files files key reverse w = (Ok out, w)
    /\ Permutation files out
    /\ StronglySorted
         (fun a b => if reverse then Z.leb (t b) (t a) = true
                     else Z.leb (t a) (t b) = true) out
    /\ forall k,
         List.filter (fun p => Z.eqb k (t p)) out
         = List.filter (fun p => Z.eqb k (t p)) files.
Proof.
  intros Hkey Hfiles.
  destruct (sort_files_stat w key oracle Hkey) as (k & Hk & Hsort).
  destruct (sort_on_spec Z.leb Zleb_total Zleb_trans t files reverse)
    as (Hperm & Hsorted & Hstable & _).
  eexists. split; [|split; [exact Hperm|split; [exact Hsorted|]]].
  - rewrite Hsort. apply sorted_ok. intros p Hp.
    rewrite (Hk p), (Hfiles p Hp). reflexivity.
  - intros z.
    rewrite (filter_ext_bool (fun p => Z.eqb z (t p))
               (fun p => Z.leb z (t p) && Z.leb (t p) z))
      by (intros p; symmetry; apply Zleb_both).
    rewrite Hstable. apply filter_ext_bool. intros p. apply Zleb_both.
Qed.

(** X4.  With key [mtime] or [size], a file whose metadata cannot be read
    makes [sort_files] raise: the exception is the one of the first such
    file in list order, and the world is left as it was. *)
Theorem sort_files_stat_error pre p rest (reverse : bool) w key oracle e :
  stat_key w key oracle ->
  (forall q, In q pre -> exists t, oracle q = inr t) ->
  oracle p = inl e ->
  sort_files (pre ++ p :: rest) key reverse w = (Raise (Exc e), w).
Proof.
  intros Hkey Hpre Hp.
  destruct (sort_files_stat w key oracle Hkey) as (k & Hk & Hsort).
  rewrite Hsort. apply sorted_first_error.
  - intros q Hq. destruct (Hpre q Hq) as [t Ht]. exists t.
    rewrite (Hk q), Ht. reflexivity.
  - rewrite (Hk p), Hp. reflexivity.
Qed.

(** A [map_m] of a reading key function that returns has read every key. *)
Lemma reads_all (k : string -> M (@world page) Z) oracle w files ks w' :
  reads k oracle w ->
  map_m k files w = (Ok ks, w') ->
  forall p, In p files -> exists t, oracle p = inr t.
Proof.
  intros Hk. revert ks w'.
  induction files as [|a l IH]; intros ks w' H p Hp; [destruct Hp|].
  simpl in H. unfold bind at 1 in H. rewrite (Hk a) in H.
  destruct (oracle a) as [e|t] eqn:Ha; [discriminate|].
  unfold bind at 1 in H.
  destruct (map_m k l w) as [[ks1|x] w1]; [|discriminate].
  destruct Hp as [<-|Hp]; [eauto|]. eapply (IH ks1 w1); [reflexivity|exact Hp].
Qed.

(** X5.  [sort_files] is idempotent: sorting what it returned, with the same
    key and direction, returns it unchanged. *)
Theorem sort_files_idempotent files key (reverse : bool) w out w' :
  sort_files files key reverse w = (Ok out, w') ->
  sort_files out key reverse w = (Ok out, w).
Proof.
  intros H.
  assert (Hname : forall f : string -> string,
            sorted String.leb (fun p => ret (f p)) files reverse w = (Ok out, w') ->
            sorted String.leb (fun p => ret (f p)) out reverse w = (Ok out, w)).
  { intros f Hf. rewrite sorted_pure in Hf. injection Hf as <- _.
    rewrite sorted_pure.
    destruct (sort_on_spec String.leb String.leb_total string_leb_trans
                f files reverse) as (_ & _ & _ & Hid).
    simpl in Hid. rewrite Hid. reflexivity. }
  assert (Hstat : forall k oracle,
            reads k oracle w ->
            sorted Z.leb k files reverse w = (Ok out, w') ->
            sorted Z.leb k out reverse w = (Ok out, w)).
  { intros k oracle Hk Hs.
    set (t := fun p => match oracle p with inr z => z | inl _ => 0%Z end).
    assert (Hall : forall p, In p files -> k p w = (Ok (t p), w)).
    { unfold sorted, bind in Hs.
      destruct (map_m k files w) as [[ks|x] w1] eqn:E; [|discriminate].
      intros p Hp. destruct (reads_all k oracle w files ks w1 Hk E p Hp)
        as [z Hz].
      rewrite (Hk p). unfold t. rewrite Hz. reflexivity. }
    rewrite (sorted_ok Z.leb k t files reverse w Hall) in Hs.
    injection Hs as <- _.
    destruct (sort_on_spec Z.leb Zleb_total Zleb_trans t files reverse)
      as (Hperm & _ & _ & Hid).
    simpl in Hid, Hperm.
    rewrite (sorted_ok Z.leb k t).
    - rewrite Hid. reflexivity.
    - intros p Hp. apply Hall.
      eapply Permutation_in; [symmetry; exact Hperm|exact Hp]. }
  unfold sort_files in *.
  destruct (String.eqb key "name"); [apply (Hname name_key), H|].
  destruct (String.eqb key "mtime");
    [apply (Hstat _ _ (getmtime_reads w)), H|].
  destruct (String.eqb key "size");
    [apply (Hstat _ _ (getsize_reads w)), H|].
  unfold ret in *. injection H as <- _. reflexivity.
Qed.

(** X6.  Whatever the key, a [sort_files] that returns gives back the files
    it was given, none dropped and none repeated, and leaves the world as
    it was. *)
Theorem sort_files_permutes files key (reverse : bool) w out w' :
  sort_files files key reverse w = (Ok out, w') ->
  Permutation files out /\ length out = length files /\ w' = w.
Proof.
  intros H.
  assert (Hw : w' = w).
  { pose proof (sort_files_world files key reverse w) as E.
    rewrite H in E. exact E. }
  assert (Hperm : Permutation files out).
  { unfold sort_files in H.
    destruct (String.eqb key "name"); [eapply sorted_perm, H|].
    destruct (String.eqb key "mtime"); [eapply sorted_perm, H|].
    destruct (String.eqb key "size"); [eapply sorted_perm, H|].
    unfold ret in H. injection H as <- _. reflexivity. }
  split; [exact Hperm|]. split; [|exact Hw].
  symmetry. apply Permutation_length, Hperm.
Qed.

End SortFilesFacts.

(** * More on the merge loop *)

Section MergeMore.

Context {page : Type}.
Implicit Types (st : @frame page) (w : @world page) (r : @reader page).
Implicit Types (ps : list page) (evs : list (@event page)).


Lemma merge_loop_filter inputs password strict st :
  merge_loop (List.filter is_pdf_name inputs) password strict st
  = merge_loop inputs password strict st.
Proof.
  unfold merge_loop. revert st. induction inputs as [|p l IH]; intros st;
    [reflexivity|].
  simpl. destruct (is_pdf_name p) eqn:Hp.
  - simpl. unfold bind.
    destruct (merge_one password strict p st) as [[[]|x] st1];
      [apply IH|reflexivity].
  - unfold bind at 1. rewrite merge_one_not_pdf by exact Hp. apply IH.
Qed.

(** X8.  Inputs whose name does not end in .pdf are passed over without a
    trace: the call does exactly what it does on the list without them. *)
Theorem merge_pdfs_ignores_other_names inputs output password strict w :
  merge_pdfs (List.filter is_pdf_name inputs) output password strict w
  = merge_pdfs inputs output password strict w.
Proof.
  unfold merge_pdfs. rewrite !merge_body_unfold, merge_loop_filter.
  reflexivity.
Qed.

(** X9.  An input that exists but cannot be opened or parsed: in non-strict
    mode the error is printed, nothing is appended and the loop goes on; in
    strict mode the call raises and writes nothing, and the exception is the
    one of the library when the loop gets to that input. *)
Theorem unreadable_input path e w output password :
  is_pdf_name path = true ->
  fs w !! path = Some (inl e) ->
  (forall st rest,
     fs (env st) = fs w ->
     merge_loop (path :: rest) password false st
     = merge_loop rest password false
         (advance st []
            [EvOpen path;
             EvPrint ("[ERROR] Failed to read " ++ path ++ ": " ++ exc_str e)]))
  /\ (forall inputs,
        In path inputs ->
        exists x w',
          merge_pdfs inputs output password true w = (Raise x, w')
          /\ fs w' = fs w)
  /\ (forall pre rest st,
        merge_loop pre password true (enter w) = (Ok tt, st) ->
        exists w' evs,
          merge_pdfs (pre ++ path :: rest) output password true w
          = (Raise (Exc e), w')
          /\ fs w' = fs w
          /\ trace w' = trace w ++ evs
          /\ no_write evs).
Proof.
  intros Hn Hf.
  assert (Hone : forall strict st, fs (env st) = fs w ->
            merge_one password strict path st
            = (fatal_if strict e,
               advance st [] [EvOpen path; EvPrint (msg_error path e)])).
  { intros strict st Hst. apply merge_one_unreadable; congruence. }
  split; [|split].
  - intros st rest Hst. unfold merge_loop. simpl. unfold bind at 1.
    rewrite (Hone false st Hst). reflexivity.
  - intros inputs Hin.
    destruct (strict_loop_raises password w path inputs Hin)
      with (st := enter w) as (x & st' & Hx); [|reflexivity|].
    + intros st Hst. rewrite (Hone true st Hst). eauto.
    + destruct (merge_loop_fs _ _ _ _ _ _ Hx) as (Hfs & _).
      exists x, (env st'). unfold merge_pdfs.
      rewrite merge_body_unfold, Hx. split; [reflexivity|exact Hfs].
  - intros pre rest st Hpre.
    destruct (merge_loop_fs _ _ _ _ _ _ Hpre) as (Hfs & _).
    edestruct (strict_abort_at (pre ++ path :: rest) pre path rest output
                 password w st) as (w' & evs & H1 & H2 & H3 & H4 & _);
      [reflexivity|exact Hpre|apply (Hone true st Hfs)|repeat constructor|].
    exists w', evs. auto.
Qed.

(** X10.  An encrypted input that the (non-empty) password opens is merged
    like an unencrypted one: after [decrypt], all its pages are appended in
    order, the count is printed and the loop goes on, in either mode. *)
Theorem decrypted_input_is_merged path r w pw :
  is_pdf_name path = true ->
  fs w !! path = Some (inr r) ->
  is_encrypted r = true ->
  pw <> EmptyString ->
  decrypt r pw = None ->
  pages_raise r = None ->
  forall strict st rest,
    fs (env st) = fs w ->
    merge_loop (path :: rest) (Some pw) strict st
    = merge_loop rest (Some pw) strict
        (advance st (pages r)
           (EvOpen path :: EvDecrypt path pw :: map EvAddPage (pages r)
            ++ [EvPrint ("[OK] Added " ++ PyStr.of_nat (length (pages r))
                         ++ " pages from " ++ path)])).
Proof.
  intros Hn Hf He Hpw Hd Hr strict st rest Hst.
  assert (Hp : PyStr.truthy_str (Some pw) = true)
    by (destruct pw; [congruence|reflexivity]).
  unfold merge_loop. simpl. unfold bind at 1.
  rewrite (merge_one_decrypted pw strict path st r) by congruence.
  unfold pages_outcome. rewrite Hr. reflexivity.
Qed.



End MergeMore.

(** * More on [main] *)

Section MainMore.

Context {page : Type}.
Implicit Types (w : @world page).

Lemma listing_world (files : list string) w :
  exists w2,
    for_each files (fun f => print (" - " ++ f)) w = (Ok tt, w2)
    /\ fs w2 = fs w
    /\ trace w2 = trace w ++ map (fun f => EvPrint (" - " ++ f)) files.
Proof.
  revert w. induction files as [|f l IH]; intros w.
  - exists w. simpl. rewrite app_nil_r. repeat split.
  - destruct (IH (log (EvPrint (" - " ++ f)) w)) as (w2 & Hrun & Hfs & Htr).
    exists w2. simpl. unfold bind at 1. unfold print at 1, emit, modify. simpl.
    rewrite Hrun. split; [reflexivity|]. split; [exact Hfs|].
    rewrite Htr. simpl. rewrite <- app_assoc. reflexivity.
Qed.

(** With candidates, [main] prints the list and then does what
    [merge_pdfs] does. *)
Lemma main_with_candidates a w (files : list string) :
  collect a w = (Ok files, w) ->
  files <> [] ->
  exists w2,
    fs w2 = fs w
    /\ trace w2 = trace w ++ EvPrint "[INFO] Files to merge in order:"
                  :: map (fun f => EvPrint (" - " ++ f)) files
    /\ main a w
       = match merge_pdfs files (args_output a) (args_password a)
                 (args_strict a) w2 with
         | (Ok _, w3) => (Ok tt, w3)
         | (Raise x, w3) => (Raise x, w3)
         end.
Proof.
  intros Hc Hne.
  destruct (listing_world files
              (log (EvPrint "[INFO] Files to merge in order:") w))
    as (w2 & Hrun & Hfs & Htr).
  exists w2. split; [exact Hfs|].
  split; [rewrite Htr; simpl; rewrite <- app_assoc; reflexivity|].
  unfold main. unfold bind at 1. rewrite Hc.
  destruct files as [|f l]; [congruence|].
  unfold bind at 1. unfold print at 1, emit, modify. simpl upd_world.
  cbv beta iota. unfold bind at 1. rewrite Hrun.
  unfold bind at 1.
  destruct (merge_pdfs (f :: l) (args_output a) (args_password a)
              (args_strict a) w2) as [[n|x] w3]; reflexivity.
Qed.

Lemma appended_all_fs password w w2 (files : list string) :
  fs w2 = fs w ->
  appended_all password w2 files = appended_all password w files.
Proof.
  intros H. unfold appended_all. f_equal. apply map_ext. intros p.
  unfold appended. rewrite H. reflexivity.
Qed.

Lemma sort_files_nil key (reverse : bool) w :
  sort_files [] key reverse w = (Ok [], w).
Proof.
  unfold sort_files.
  destruct (String.eqb key "name"); [destruct reverse; reflexivity|].
  destruct (String.eqb key "mtime"); [destruct reverse; reflexivity|].
  destruct (String.eqb key "size"); [destruct reverse; reflexivity|].
  reflexivity.
Qed.

(** X12.  With [-d] and a directory tree that holds no entry ending in .pdf,
    [main] raises [SystemExit] with the message, whatever the sort key and
    direction are, and nothing else happens. *)
Theorem main_directory_without_pdfs a d w :
  PyStr.truthy_list (args_inputs a) = false ->
  args_directory a = Some d ->
  Forall (fun '(_, _, files) =>
            Forall (fun f => is_pdf_name f = false) files) (os_walk w d) ->
  main a w = (Raise (SystemExit "No PDF files found to merge."), w)
  /\ exit_status (fst (main a w)) = 1.
Proof.
  intros Hi Hd Hw.
  assert (Hfind : find_pdfs_in_dir (Some d) w = (Ok [], w)).
  { rewrite find_pdfs_in_dir_unfold. f_equal. f_equal.
    induction Hw as [|[[root dirs] files] t Hf _ IH]; simpl; [reflexivity|].
    rewrite IH, app_nil_r.
    clear IH. induction Hf as [|f fl Hn _ IHf]; simpl; [reflexivity|].
    rewrite Hn. exact IHf. }
  assert (Hm : main a w
               = (Raise (SystemExit "No PDF files found to merge."), w)).
  { unfold main, collect. rewrite Hi, Hd. unfold bind at 1. unfold bind at 1.
    rewrite Hfind, sort_files_nil. reflexivity. }
  rewrite Hm. split; reflexivity.
Qed.

(** X13.  With [-d] and [--sort mtime] or [--sort size], a discovered file
    whose metadata cannot be read makes [main] fail with the error of the
    first such file: the exit status is 1, nothing is printed and the merge
    is not started. *)
Theorem main_stat_error a d w key oracle pre p rest e :
  PyStr.truthy_list (args_inputs a) = false ->
  args_directory a = Some d ->
  args_sort a = key ->
  stat_key w key oracle ->
  find_pdfs_in_dir (Some d) w = (Ok (pre ++ p :: rest), w) ->
  (forall q, In q pre -> exists t, oracle q = inr t) ->
  oracle p = inl e ->
  main a w = (Raise (Exc e), w)
  /\ exit_status (fst (main a w)) = 1.
Proof.
  intros Hi Hd Hs Hkey Hfind Hpre Hp.
  destruct (sort_files_stat w key oracle Hkey) as (k & Hk & Hsort).
  assert (Hm : main a w = (Raise (Exc e), w)).
  { unfold main, collect. rewrite Hi, Hd, Hs.
    unfold bind at 1. unfold bind at 1. rewrite Hfind, Hsort.
    rewrite (sorted_first_error Z.leb k pre rest p (Exc e)).
    - reflexivity.
    - intros q Hq. destruct (Hpre q Hq) as [t Ht]. exists t.
      rewrite (Hk q), Ht. reflexivity.
    - rewrite (Hk p), Hp. reflexivity. }
  rewrite Hm. split; reflexivity.
Qed.

(** X14.  [main] ends with exit status 0 only after the output was written:
    then there were candidates, they contributed at least one page, and the
    files differ from those at the start only at the output path, which
    holds the contributed pages. *)
Theorem main_exit_zero a w :
  exit_status (fst (main a w)) = 0 ->
  exists files p ps,
    collect a w = (Ok files, w)
    /\ files <> []
    /\ appended_all (args_password a) w files = p :: ps
    /\ fs (snd (main a w))
       = <[args_output a := inr (written (p :: ps))]> (fs w).
Proof.
  intros Hz.
  pose proof (collect_world a w) as Hcw.
  destruct (collect a w) as [[files|x] w1] eqn:Hc; simpl in Hcw; subst w1.
  2:{ unfold main, bind in Hz. rewrite Hc in Hz. discriminate Hz. }
  destruct files as [|f l].
  { unfold main, bind in Hz. rewrite Hc in Hz. discriminate Hz. }
  destruct (main_with_candidates a w (f :: l) Hc) as (w2 & Hfs & _ & Hm);
    [discriminate|].
  rewrite Hm in Hz |- *. clear Hm.
  unfold merge_pdfs in *. rewrite merge_body_unfold in *.
  destruct (merge_loop_spec (f :: l) (args_password a) (args_strict a)
              (enter w2))
    as (res & dn & rest & evs & Hin & Hrun & _ & _ & Hok & _).
  rewrite Hrun in Hz |- *.
  destruct res as [[]|x]; [|discriminate Hz].
  specialize (Hok eq_refl). subst rest. rewrite app_nil_r in Hin. subst dn.
  simpl in Hz |- *.
  rewrite (appended_all_fs _ w w2) in * by exact Hfs.
  destruct (appended_all (args_password a) w (f :: l)) as [|p ps] eqn:Ha;
    [discriminate Hz|].
  simpl. exists (f :: l), p, ps.
  split; [reflexivity|]. split; [discriminate|]. split; [exact Ha|].
  rewrite Hfs. reflexivity.
Qed.

End MainMore.

(** * Strict and non-strict runs *)

Section StrictFacts.

Context {page : Type}.
Implicit Types (st : @frame page) (w : @world page) (r : @reader page).

(** A loop body that finishes under [strict] met no error, and does the
    same without [strict]. *)
Lemma merge_one_strict_ok password path st st' :
  merge_one password true path st = (Ok tt, st') ->
  merge_one password false path st = (Ok tt, st').
Proof.
  destruct (is_pdf_name path) eqn:Hn.
  2:{ rewrite !merge_one_not_pdf by exact Hn. auto. }
  destruct (fs (env st) !! path) as [[e|r]|] eqn:Hf.
  - rewrite (merge_one_unreadable _ _ _ _ e) by assumption. discriminate.
  - assert (Hread : forall pre : list (@event page),
              (fst (pages_outcome true path r),
               advance st (pages r)
                 (pre ++ map EvAddPage (pages r)
                  ++ snd (pages_outcome true path r))) = (Ok tt, st') ->
              (fst (pages_outcome false path r),
               advance st (pages r)
                 (pre ++ map EvAddPage (pages r)
                  ++ snd (pages_outcome false path r))) = (Ok tt, st')).
    { intros pre. unfold pages_outcome.
      destruct (pages_raise r); [discriminate|auto]. }
    destruct (is_encrypted r) eqn:He.
    + destruct password as [[|c pw]|].
      * rewrite (merge_one_no_password _ _ _ _ r) by auto. discriminate.
      * destruct (decrypt r (String c pw)) as [e|] eqn:Hd.
        -- rewrite (merge_one_decrypt_fails _ _ _ _ r e) by auto.
           discriminate.
        -- rewrite !(merge_one_decrypted _ _ _ _ r) by auto.
           apply (Hread [EvOpen path; EvDecrypt path (String c pw)]).
      * rewrite (merge_one_no_password _ _ _ _ r) by auto. discriminate.
    + rewrite !(merge_one_plain _ _ _ _ r) by auto.
      apply (Hread [EvOpen path]).
  - rewrite !merge_one_missing by assumption. auto.
Qed.

Lemma merge_loop_strict_ok inputs password st st' :
  merge_loop inputs password true st = (Ok tt, st') ->
  merge_loop inputs password false st = (Ok tt, st').
Proof.
  unfold merge_loop. revert st. induction inputs as [|p l IH]; intros st;
    [auto|].
  simpl. unfold bind.
  destruct (merge_one password true p st) as [[[]|x] st1] eqn:E;
    [|discriminate].
  rewrite (merge_one_strict_ok _ _ _ _ E). apply IH.
Qed.

(** X15.  [strict] only turns errors into aborts: a strict call that returns
    did exactly what the non-strict call does on the same arguments. *)
Theorem strict_success_agrees inputs output password w n w' :
  merge_pdfs inputs output password true w = (Ok n, w') ->
  merge_pdfs inputs output password false w = (Ok n, w').
Proof.
  unfold merge_pdfs. rewrite !merge_body_unfold.
  destruct (merge_loop inputs password true (enter w)) as [[[]|x] st] eqn:E;
    [|discriminate].
  rewrite (merge_loop_strict_ok _ _ _ _ E). auto.
Qed.

End StrictFacts.

(** * More concrete runs *)

Module MoreRuns.

Import Samples DirSamples.

Lemma find_pdfs_in_dir_base_names_witness :
  Forall (fun '(_, _, files) =>
            Forall (fun f => PyStr.has_slash f = false) files)
    (os_walk dir_world "docs")
  /\ exists l,
       find_pdfs_in_dir (Some "docs") dir_world = (Ok l, dir_world)
       /\ map PyStr.basename l = ["b.pdf"; "A.PDF"; "c.pdf"]
       /\ map name_key l = ["b.pdf"; "a.pdf"; "c.pdf"].
Proof.
  assert (H : Forall (fun '(_, _, files) =>
                        Forall (fun f => PyStr.has_slash f = false) files)
                (os_walk dir_world "docs"))
    by (repeat constructor).
  split; [exact H|].
  apply (find_pdfs_in_dir_base_names "docs" dir_world H).
Defined.

Lemma sort_files_by_stat_witness :
  stat_key dir_world "mtime" sample_mtime
  /\ (forall p, In p dir_files -> sample_mtime p = inr (number_of sample_mtime p))
  /\ exists out,
       sort_files dir_files "mtime" true dir_world = (Ok out, dir_world)
       /\ Permutation dir_files out
       /\ StronglySorted
            (fun a b => Z.leb (number_of sample_mtime b)
                          (number_of sample_mtime a) = true) out
       /\ forall k,
            List.filter (fun p => Z.eqb k (number_of sample_mtime p)) out
            = List.filter (fun p => Z.eqb k (number_of sample_mtime p)) dir_files.
Proof.
  assert (H1 : stat_key dir_world "mtime" sample_mtime)
    by (left; split; reflexivity).
  assert (H2 : forall p, In p dir_files ->
               sample_mtime p = inr (number_of sample_mtime p))
    by (intros p [<-|[<-|[<-|[]]]]; reflexivity).
  split; [exact H1|]. split; [exact H2|].
  apply (sort_files_by_stat dir_files true dir_world "mtime" sample_mtime
           (number_of sample_mtime) H1 H2).
Defined.

Lemma sort_files_stat_error_witness :
  stat_key dir_world "mtime" sample_mtime
  /\ sample_mtime "stale/gone.pdf"
     = inl (Exception "FileNotFoundError" "stale/gone.pdf")
  /\ sort_files (["stale/x.pdf"] ++ "stale/gone.pdf" :: ["stale/y.pdf"])
       "mtime" false dir_world
     = (Raise (Exc (Exception "FileNotFoundError" "stale/gone.pdf")),
        dir_world).
Proof.
  assert (H1 : stat_key dir_world "mtime" sample_mtime)
    by (left; split; reflexivity).
  assert (H2 : forall q, In q ["stale/x.pdf"] ->
               exists t, sample_mtime q = inr t)
    by (intros q [<-|[]]; eexists; reflexivity).
  assert (H3 : sample_mtime "stale/gone.pdf"
               = inl (Exception "FileNotFoundError" "stale/gone.pdf"))
    by reflexivity.
  split; [exact H1|]. split; [exact H3|].
  apply (sort_files_stat_error ["stale/x.pdf"] "stale/gone.pdf"
           ["stale/y.pdf"] false dir_world "mtime" sample_mtime _ H1 H2 H3).
Defined.

Lemma sort_files_idempotent_witness :
  sort_files dir_files "size" true dir_world
  = (Ok ["docs/sub/A.PDF"; "docs/sub/c.pdf"; "docs/b.pdf"], dir_world)
  /\ sort_files ["docs/sub/A.PDF"; "docs/sub/c.pdf"; "docs/b.pdf"] "size" true
       dir_world
     = (Ok ["docs/sub/A.PDF"; "docs/sub/c.pdf"; "docs/b.pdf"], dir_world).
Proof.
  assert (H : sort_files dir_files "size" true dir_world
              = (Ok ["docs/sub/A.PDF"; "docs/sub/c.pdf"; "docs/b.pdf"],
                 dir_world)) by reflexivity.
  split; [exact H|].
  apply (sort_files_idempotent dir_files "size" true dir_world _ _ H).
Defined.

Lemma sort_files_permutes_witness :
  sort_files dir_files "mtime" false dir_world
  = (Ok ["docs/sub/A.PDF"; "docs/sub/c.pdf"; "docs/b.pdf"], dir_world)
  /\ Permutation dir_files ["docs/sub/A.PDF"; "docs/sub/c.pdf"; "docs/b.pdf"]
  /\ length ["docs/sub/A.PDF"; "docs/sub/c.pdf"; "docs/b.pdf"]
     = length dir_files
  /\ dir_world = dir_world.
Proof.
  assert (H : sort_files dir_files "mtime" false dir_world
              = (Ok ["docs/sub/A.PDF"; "docs/sub/c.pdf"; "docs/b.pdf"],
                 dir_world)) by reflexivity.
  split; [exact H|].
  apply (sort_files_permutes dir_files "mtime" false dir_world _ _ H).
Defined.

Lemma unreadable_input_witness :
  is_pdf_name "junk.pdf" = true
  /\ fs sample_world !! "junk.pdf" = Some (inl boom)
  /\ merge_loop ["junk.pdf"; "a.pdf"] None false (enter sample_world)
     = merge_loop ["a.pdf"] None false
         (advance (enter sample_world) []
            [EvOpen "junk.pdf";
             EvPrint "[ERROR] Failed to read junk.pdf: boom"])
  /\ exists w' evs,
       merge_pdfs (["a.pdf"] ++ "junk.pdf" :: ["b.PDF"]) "out.pdf" None true
         sample_world
       = (Raise (Exc boom), w')
       /\ fs w' = fs sample_world
       /\ trace w' = trace sample_world ++ evs
       /\ no_write evs.
Proof.
  assert (H1 : is_pdf_name "junk.pdf" = true) by reflexivity.
  assert (H2 : fs sample_world !! "junk.pdf" = Some (inl boom))
    by reflexivity.
  destruct (unreadable_input "junk.pdf" boom sample_world "out.pdf" None
              H1 H2) as (Hskip & _ & Hstrict).
  split; [exact H1|]. split; [exact H2|]. split.
  - apply (Hskip (enter sample_world) ["a.pdf"]). reflexivity.
  - apply (Hstrict ["a.pdf"] ["b.PDF"]
             (snd (merge_loop ["a.pdf"] None true (enter sample_world)))).
    reflexivity.
Defined.

Lemma decrypted_input_is_merged_witness :
  is_pdf_name "enc.pdf" = true
  /\ fs sample_world !! "enc.pdf" = Some (inr enc_reader)
  /\ decrypt enc_reader "secret" = None
  /\ merge_loop ["enc.pdf"; "a.pdf"] (Some "secret") true (enter sample_world)
     = merge_loop ["a.pdf"] (Some "secret") true
         (advance (enter sample_world) [4]
            [EvOpen "enc.pdf"; EvDecrypt "enc.pdf" "secret"; EvAddPage 4;
             EvPrint "[OK] Added 1 pages from enc.pdf"]).
Proof.
  assert (H1 : is_pdf_name "enc.pdf" = true) by reflexivity.
  assert (H2 : fs sample_world !! "enc.pdf" = Some (inr enc_reader))
    by reflexivity.
  assert (H3 : decrypt enc_reader "secret" = None) by reflexivity.
  split; [exact H1|]. split; [exact H2|]. split; [exact H3|].
  apply (decrypted_input_is_merged "enc.pdf" enc_reader sample_world "secret"
           H1 H2 eq_refl ltac:(discriminate) H3 eq_refl true
           (enter sample_world) ["a.pdf"] eq_refl).
Defined.


Lemma main_directory_without_pdfs_witness :
  Forall (fun '(_, _, files) =>
            Forall (fun f => is_pdf_name f = false) files)
    (os_walk dir_world "notes")
  /\ main (dir_args "notes" "mtime" true) dir_world
     = (Raise (SystemExit "No PDF files found to merge."), dir_world)
  /\ exit_status (fst (main (dir_args "notes" "mtime" true) dir_world)) = 1.
Proof.
  assert (H : Forall (fun '(_, _, files) =>
                        Forall (fun f => is_pdf_name f = false) files)
                (os_walk dir_world "notes"))
    by (repeat constructor).
  split; [exact H|].
  apply (main_directory_without_pdfs (dir_args "notes" "mtime" true) "notes"
           dir_world eq_refl eq_refl H).
Defined.

Lemma main_stat_error_witness :
  find_pdfs_in_dir (Some "stale") dir_world
  = (Ok (["stale/x.pdf"] ++ "stale/gone.pdf" :: ["stale/y.pdf"]), dir_world)
  /\ sample_mtime "stale/gone.pdf"
     = inl (Exception "FileNotFoundError" "stale/gone.pdf")
  /\ main (dir_args "stale" "mtime" false) dir_world
     = (Raise (Exc (Exception "FileNotFoundError" "stale/gone.pdf")),
        dir_world)
  /\ exit_status (fst (main (dir_args "stale" "mtime" false) dir_world)) = 1.
Proof.
  assert (H1 : stat_key dir_world "mtime" sample_mtime)
    by (left; split; reflexivity).
  assert (H2 : find_pdfs_in_dir (Some "stale") dir_world
               = (Ok (["stale/x.pdf"] ++ "stale/gone.pdf" :: ["stale/y.pdf"]),
                  dir_world)) by reflexivity.
  assert (H3 : forall q, In q ["stale/x.pdf"] ->
               exists t, sample_mtime q = inr t)
    by (intros q [<-|[]]; eexists; reflexivity).
  assert (H4 : sample_mtime "stale/gone.pdf"
               = inl (Exception "FileNotFoundError" "stale/gone.pdf"))
    by reflexivity.
  split; [exact H2|]. split; [exact H4|].
  apply (main_stat_error (dir_args "stale" "mtime" false) "stale" dir_world
           "mtime" sample_mtime ["stale/x.pdf"] "stale/gone.pdf"
           ["stale/y.pdf"] _ eq_refl eq_refl eq_refl H1 H2 H3 H4).
Defined.

Lemma main_exit_zero_witness :
  exit_status (fst (main (dir_args "docs" "name" false) dir_world)) = 0
  /\ exists files p ps,
       collect (dir_args "docs" "name" false) dir_world = (Ok files, dir_world)
       /\ files <> []
       /\ appended_all None dir_world files = p :: ps
       /\ fs (snd (main (dir_args "docs" "name" false) dir_world))
          = <["out.pdf" := inr (written (p :: ps))]> (fs dir_world).
Proof.
  assert (H : exit_status (fst (main (dir_args "docs" "name" false) dir_world))
              = 0) by reflexivity.
  split; [exact H|].
  apply (main_exit_zero (dir_args "docs" "name" false) dir_world H).
Defined.

Lemma strict_success_agrees_witness :
  merge_pdfs ["a.pdf"; "missing.pdf"; "b.PDF"] "out.pdf" None true sample_world
  = (Ok 3,
     env (finished "out.pdf"
            (advance (enter sample_world) [1; 2; 3]
               [EvOpen "a.pdf"; EvAddPage 1; EvAddPage 2;
                EvPrint "[OK] Added 2 pages from a.pdf";
                EvPrint "[WARN] Not found: missing.pdf";
                EvOpen "b.PDF"; EvAddPage 3;
                EvPrint "[OK] Added 1 pages from b.PDF"])))
  /\ merge_pdfs ["a.pdf"; "missing.pdf"; "b.PDF"] "out.pdf" None false
       sample_world
     = (Ok 3,
        env (finished "out.pdf"
               (advance (enter sample_world) [1; 2; 3]
                  [EvOpen "a.pdf"; EvAddPage 1; EvAddPage 2;
                   EvPrint "[OK] Added 2 pages from a.pdf";
                   EvPrint "[WARN] Not found: missing.pdf";
                   EvOpen "b.PDF"; EvAddPage 3;
                   EvPrint "[OK] Added 1 pages from b.PDF"]))).
Proof.
  assert (H : merge_pdfs ["a.pdf"; "missing.pdf"; "b.PDF"] "out.pdf" None true
                sample_world
              = (Ok 3,
                 env (finished "out.pdf"
                        (advance (enter sample_world) [1; 2; 3]
                           [EvOpen "a.pdf"; EvAddPage 1; EvAddPage 2;
                            EvPrint "[OK] Added 2 pages from a.pdf";
                            EvPrint "[WARN] Not found: missing.pdf";
                            EvOpen "b.PDF"; EvAddPage 3;
                            EvPrint "[OK] Added 1 pages from b.PDF"]))))
    by reflexivity.
  split; [exact H|].
  apply (strict_success_agrees _ "out.pdf" None sample_world 3 _ H).
Defined.

End MoreRuns.
